(** * cueBeam: the field solver of [python/cueBeamCore.py]

    A shallow embedding of the classes [CueBeamSolver], [TxElement] and
    [RxPlane] and of the methods [RxPlane.__init__],
    [RxPlane.clear_pressurefield], [RxPlane.verify_plane_endpoints] and
    [CueBeamSolver.beamsim].

    Modelling decisions.
    - Python [float] values are real numbers ([R]): rounding, overflow and
      NaN are idealised away.  Python [int] values are [Z]; loop indices
      produced by [range] are natural numbers.  The code itself rounds: its
      zero test is on the rounded divisor, [math.cos] and [math.sin] raise
      [ValueError] on an infinite argument, and its additions are not
      associative.  What is stated over [R] is therefore either independent of
      the arithmetic (shape, frame, idempotence, which cells are written), or
      stated for runs that return and using one addition only; the module
      [B64] runs the body of [beamsim] on binary64 floats where the rounding
      decides.
    - A [numpy] array is a mutable object with identity.  Arrays live in a
      heap and are named by locations, so that in-place writes
      ([a[(iy, iz)] = v]) and re-binding ([self.pressurefield = ...]) are
      told apart.
    - Methods are computations in a state-and-exception monad: an exception
      leaves the state as it was when it was raised, as in Python.  A float
      division by zero raises [ZeroDivisionError]; a write outside an array
      raises [IndexError]. *)

From Stdlib Require Import Reals Lra Lia ZArith String.
From Stdlib Require Floats Uint63.
From stdpp Require Import base list.

Open Scope R_scope.

(** ** Exceptions and the state-and-exception monad *)

Inductive exn : Type :=
  | AttributeError (msg : string)
  | ZeroDivisionError
  | IndexError
  | ValueError
  | SystemError.

Inductive outcome (A : Type) : Type :=
  | Ret (a : A)
  | Raise (e : exn).
Arguments Ret {A} a.
Arguments Raise {A} e.

Definition M (S A : Type) : Type := S -> outcome A * S.

Definition ret {S A} (a : A) : M S A := fun s => (Ret a, s).

Definition raise {S A} (e : exn) : M S A := fun s => (Raise e, s).

Definition bind {S A B} (m : M S A) (f : A -> M S B) : M S B :=
  fun s =>
    match m s with
    | (Ret a, s') => f a s'
    | (Raise e, s') => (Raise e, s')
    end.

Definition gets {S A} (f : S -> A) : M S A := fun s => (Ret (f s), s).

Definition modify {S} (f : S -> S) : M S unit := fun s => (Ret tt, f s).

Declare Scope py_scope.
Delimit Scope py_scope with py.
Notation "x <- m ;; k" := (bind m (fun x => k))
  (at level 100, m at next level, right associativity) : py_scope.
Notation "m ;;; k" := (bind m (fun _ => k))
  (at level 100, right associativity) : py_scope.
Open Scope py_scope.

(** [for a in l: acc = body acc a], with the local variables of the loop body
    threaded as [acc]. *)
Fixpoint foldM {S A B} (body : B -> A -> M S B) (l : list A) (acc : B) : M S B :=
  match l with
  | [] => ret acc
  | a :: l' => acc' <- body acc a ;; foldM body l' acc'
  end.

(** [range(n)] for an integer [n]: empty when [n <= 0]. *)
Definition range (n : Z) : list nat := seq 0 (Z.to_nat n).

(** ** Numbers *)

(** Complex numbers, as the pair of their real and imaginary parts. *)
Abbreviation complex := (R * R)%type.

Definition Cadd (a b : complex) : complex := (a.1 + b.1, a.2 + b.2).

Definition Cmul (a b : complex) : complex :=
  (a.1 * b.1 - a.2 * b.2, a.1 * b.2 + a.2 * b.1).

Definition Cscale (r : R) (a : complex) : complex := (r * a.1, r * a.2).

Definition C0 : complex := (0, 0).

(** A float used where a complex is expected. *)
Definition RtoC (r : R) : complex := (r, 0).

(** The literal [1.0j]. *)
Definition Cj : complex := (0, 1).

(** [a / b] on floats: Python raises [ZeroDivisionError] when [b] is zero. *)
Definition float_div {S} (a b : R) : M S R :=
  if Req_dec_T b 0 then raise ZeroDivisionError else ret (a / b).

(** ** numpy arrays and the heap *)

(** A two-dimensional array, as the list of its rows. *)
Abbreviation ndarray := (list (list complex)).

Definition has_shape (a : ndarray) (rows cols : nat) : Prop :=
  length a = rows /\ Forall (fun row => length row = cols) a.

(** [numpy.zeros((rows, cols), numpy.complex)]: [ValueError] on a negative
    dimension.  Shapes too large for numpy to allocate are not modelled: the
    constructor admits counts up to 4096 only. *)
Definition zeros (rows cols : nat) : ndarray := replicate rows (replicate cols C0).

Definition numpy_zeros (rows cols : Z) : option ndarray :=
  if (Z.ltb rows 0 || Z.ltb cols 0)%bool then None
  else Some (zeros (Z.to_nat rows) (Z.to_nat cols)).

(** [a[(i, j)]] and [a[(i, j)] = v] for indices from [range]: out of bounds is
    [None] ([IndexError]). *)
Definition getitem (a : ndarray) (c : nat * nat) : option complex :=
  match a !! c.1 with
  | Some row => row !! c.2
  | None => None
  end.

Definition setitem (a : ndarray) (c : nat * nat) (v : complex) : option ndarray :=
  match a !! c.1 with
  | Some row =>
      if decide (c.2 < length row)%nat then Some (<[c.1 := <[c.2 := v]> row]> a)
      else None
  | None => None
  end.

Abbreviation loc := nat (only parsing).

(** The array objects allocated so far; a new one is appended. *)
Abbreviation heap := (list ndarray).

Definition alloc (a : ndarray) (h : heap) : loc * heap := (length h, h ++ [a]).

(** ** The data model *)

Record TxElement : Type := mkTxElement {
  x : R;
  y : R;
  z : R;
  amplitude : R;
  phase : R
}.

(** An [RxPlane] object: its attributes; [pressurefield] is a reference to an
    array. *)
Record RxPlane : Type := mkRxPlane {
  x0 : R;
  y0 : R;
  z0 : R;
  dx : R;
  dy : R;
  dz : R;
  nx : Z;
  ny : Z;
  nz : Z;
  pressurefield : loc
}.

(** The class attributes of [RxPlane]: what an attribute read on an instance
    gives until the instance sets the attribute itself.  [class_buffer] is the
    array created when the class body runs. *)
Definition RxPlane_class (class_buffer : loc) : RxPlane :=
  {| x0 := - 0.01e-3; y0 := - 1.0e-3; z0 := 0.0e-3;
     dx := 1.0e-3; dy := 1.0e-3; dz := 1.0e-3;
     nx := 1; ny := 240; nz := 160;
     pressurefield := class_buffer |}.

(** The state a method runs in: the object [self] it is called on, and the
    arrays. *)
Record state (O : Type) : Type := mkState {
  self : O;
  arrays : heap
}.
Arguments mkState {O} self arrays.
Arguments self {O} s.
Arguments arrays {O} s.

Definition set_self {O} (f : O -> O) : M (state O) unit :=
  modify (fun s => {| self := f (self s); arrays := arrays s |}).

Definition with_pressurefield (l : loc) (p : RxPlane) : RxPlane :=
  {| x0 := x0 p; y0 := y0 p; z0 := z0 p; dx := dx p; dy := dy p; dz := dz p;
     nx := nx p; ny := ny p; nz := nz p; pressurefield := l |}.

(** [RxPlane.clear_pressurefield]:
    [self.pressurefield = numpy.zeros((self.ny, self.nz), numpy.complex)].
    The attribute is bound to a new array. *)
Definition clear_pressurefield : M (state RxPlane) unit :=
  rows <- gets (fun s => ny (self s)) ;;
  cols <- gets (fun s => nz (self s)) ;;
  match numpy_zeros rows cols with
  | None => raise ValueError
  | Some a =>
      fun s =>
        let (l, h) := alloc a (arrays s) in
        (Ret tt, {| self := with_pressurefield l (self s); arrays := h |})
  end.

(** The arguments of the constructor. *)
Record RxPlane_args : Type := mkArgs {
  a_x0 : R; a_y0 : R; a_z0 : R;
  a_dx : R; a_dy : R; a_dz : R;
  a_nx : Z; a_ny : Z; a_nz : Z
}.

(** The default arguments of [RxPlane.__init__]. *)
Definition RxPlane_default_args : RxPlane_args :=
  {| a_x0 := - 5.0e-3; a_y0 := - 5.0e-3; a_z0 := 0.0;
     a_dx := 0.1e-3; a_dy := 0.1e-3; a_dz := 0.1e-3;
     a_nx := 1; a_ny := 10; a_nz := 10 |}.

Definition msg_nx : string := "nx must be 1: ".
Definition msg_ny : string := "ny must have a sensible value between 1 an 4096".
Definition msg_nz : string := "nz must have a sensible value between 1 and 4096".

Definition with_origin (vx vy vz : R) (p : RxPlane) : RxPlane :=
  {| x0 := vx; y0 := vy; z0 := vz; dx := dx p; dy := dy p; dz := dz p;
     nx := nx p; ny := ny p; nz := nz p; pressurefield := pressurefield p |}.

Definition with_spacing (vx vy vz : R) (p : RxPlane) : RxPlane :=
  {| x0 := x0 p; y0 := y0 p; z0 := z0 p; dx := vx; dy := vy; dz := vz;
     nx := nx p; ny := ny p; nz := nz p; pressurefield := pressurefield p |}.

Definition with_ny (n : Z) (p : RxPlane) : RxPlane :=
  {| x0 := x0 p; y0 := y0 p; z0 := z0 p; dx := dx p; dy := dy p; dz := dz p;
     nx := nx p; ny := n; nz := nz p; pressurefield := pressurefield p |}.

Definition with_nz (n : Z) (p : RxPlane) : RxPlane :=
  {| x0 := x0 p; y0 := y0 p; z0 := z0 p; dx := dx p; dy := dy p; dz := dz p;
     nx := nx p; ny := ny p; nz := n; pressurefield := pressurefield p |}.

(** [RxPlane.__init__].  The attribute [nx] is never assigned: an instance
    reads the class attribute. *)
Definition RxPlane_init (a : RxPlane_args) : M (state RxPlane) unit :=
  set_self (with_origin (a_x0 a) (a_y0 a) (a_z0 a)) ;;;
  set_self (with_spacing (a_dx a) (a_dy a) (a_dz a)) ;;;
  (if negb (Z.eqb (a_nx a) 1) then raise (AttributeError msg_nx) else ret tt) ;;;
  (if (Z.gtb (a_ny a) 4096 || Z.ltb (a_ny a) 1)%bool
   then raise (AttributeError msg_ny) else ret tt) ;;;
  set_self (with_ny (a_ny a)) ;;;
  (if (Z.gtb (a_nz a) 4096 || Z.ltb (a_nz a) 1)%bool
   then raise (AttributeError msg_nz) else ret tt) ;;;
  set_self (with_nz (a_nz a)) ;;;
  clear_pressurefield.

(** The call [RxPlane(...)]: a new instance, all of whose attributes are still
    the class's, is initialised by [__init__]; the caller gets the instance
    only when [__init__] returns, and only the arrays outlive an exception. *)
Definition RxPlane_new (class_buffer : loc) (a : RxPlane_args) : M heap RxPlane :=
  fun h =>
    match RxPlane_init a {| self := RxPlane_class class_buffer; arrays := h |} with
    | (Ret _, s) => (Ret (self s), arrays s)
    | (Raise e, s) => (Raise e, arrays s)
    end.

(** [RxPlane.verify_plane_endpoints], in the arithmetic of the real numbers. *)
Definition verify_plane_endpoints (p : RxPlane) : list R :=
  [x0 p + IZR (nx p) * dx p; y0 p + IZR (ny p) * dy p; z0 p + IZR (nz p) * dz p].

(** [CueBeamSolver]: the wavenumber, the transmitters and the sampling
    plane. *)
Record CueBeamSolver : Type := mkSolver {
  wavenumber : R;
  elements : list TxElement;
  rxPlane : RxPlane
}.

(** The default transmitters: seven elements on the z axis. *)
Definition default_elements : list TxElement :=
  [ mkTxElement 0.0 0.0 (- 15.0e-3) 1.0 0.0;
    mkTxElement 0.0 0.0 (- 10.0e-3) 1.0 0.0;
    mkTxElement 0.0 0.0 (- 5.0e-3) 1.0 0.0;
    mkTxElement 0.0 0.0 0.0e-3 1.0 0.0;
    mkTxElement 0.0 0.0 5.0e-3 1.0 0.0;
    mkTxElement 0.0 0.0 10.0e-3 1.0 0.0;
    mkTxElement 0.0 0.0 15.0e-3 1.0 0.0 ].

Definition default_wavenumber : R := 1.0 / 1.0e-3.

(** The body of the loop over the transmitters; [acc] is
    [(pressure_re, pressure_im)]. *)
Definition tx_step (pixel_x pixel_y pixel_z : R) (acc : R * R) (itx : nat)
  : M (state CueBeamSolver) (R * R) :=
  els <- gets (fun s => elements (self s)) ;;
  match els !! itx with
  | None => raise IndexError
  | Some e =>
      let ddx := pixel_x - x e in
      let ddy := pixel_y - y e in
      let ddz := pixel_z - z e in
      let distance := sqrt (ddx * ddx + ddy * ddy + ddz * ddz) in
      k <- gets (fun s => wavenumber (self s)) ;;
      let kphase := (- k) * distance + phase e in
      kamplitude <- float_div (amplitude e) (2 * 3.14159 * distance) ;;
      ret (acc.1 + cos kphase * kamplitude, acc.2 + sin kphase * kamplitude)
  end.

(** [self.rxPlane.pressurefield[(iy, iz)] = v]: an in-place write into the
    array the plane refers to.  [SystemError] marks a reference to no array,
    which Python cannot produce. *)
Definition store_pressurefield (c : nat * nat) (v : complex)
  : M (state CueBeamSolver) unit :=
  fun s =>
    let l := pressurefield (rxPlane (self s)) in
    match arrays s !! l with
    | None => (Raise SystemError, s)
    | Some a =>
        match setitem a c v with
        | None => (Raise IndexError, s)
        | Some a' => (Ret tt, {| self := self s; arrays := <[l := a']> (arrays s) |})
        end
    end.

(** The body of the two loops over the sample points. *)
Definition pixel_step (ix : Z) (iz iy : nat) : M (state CueBeamSolver) unit :=
  let pressure_re := 0.0 in
  let pressure_im := 0.0 in
  p <- gets (fun s => rxPlane (self s)) ;;
  let pixel_x := x0 p + IZR ix * dx p in
  let pixel_y := y0 p + INR iy * dy p in
  let pixel_z := z0 p + INR iz * dz p in
  n <- gets (fun s => length (elements (self s))) ;;
  acc <- foldM (tx_step pixel_x pixel_y pixel_z) (range (Z.of_nat n))
               (pressure_re, pressure_im) ;;
  store_pressurefield (iy, iz) (Cadd (RtoC acc.1) (Cmul Cj (RtoC acc.2))).

(** [CueBeamSolver.beamsim]. *)
Definition beamsim : M (state CueBeamSolver) unit :=
  let ix := 0%Z in
  n_z <- gets (fun s => nz (rxPlane (self s))) ;;
  foldM (fun _ iz =>
           n_y <- gets (fun s => ny (rxPlane (self s))) ;;
           foldM (fun _ iy => pixel_step ix iz iy) (range n_y) tt)
        (range n_z) tt.

(** ** The solver as a function of the inputs

    What the loops compute, without the state: used to state and prove the
    properties below. *)

Definition distance_to (px py pz : R) (e : TxElement) : R :=
  sqrt ((px - x e) * (px - x e) + (py - y e) * (py - y e) + (pz - z e) * (pz - z e)).

(** What one transmitter adds to [(pressure_re, pressure_im)]. *)
Definition contribution (k px py pz : R) (e : TxElement) : complex :=
  let d := distance_to px py pz e in
  (cos ((- k) * d + phase e) * (amplitude e / (2 * 3.14159 * d)),
   sin ((- k) * d + phase e) * (amplitude e / (2 * 3.14159 * d))).

Definition Csum (l : list complex) : complex := foldr Cadd C0 l.

(** The loop over the transmitters: [None] is [ZeroDivisionError]. *)
Fixpoint tx_sum (k px py pz : R) (els : list TxElement) (acc : R * R) : option (R * R) :=
  match els with
  | [] => Some acc
  | e :: els' =>
      if Req_dec_T (2 * 3.14159 * distance_to px py pz e) 0 then None
      else tx_sum k px py pz els' (Cadd acc (contribution k px py pz e))
  end.

(** The sample point of the cell [(iy, iz)]. *)
Definition sample_point (p : RxPlane) (c : nat * nat) : R * R * R :=
  (x0 p + IZR 0 * dx p, y0 p + INR c.1 * dy p, z0 p + INR c.2 * dz p).

(** The value [beamsim] stores at the cell [(iy, iz)]. *)
Definition pixel_value (sv : CueBeamSolver) (c : nat * nat) : option complex :=
  let '(px, py, pz) := sample_point (rxPlane sv) c in
  match tx_sum (wavenumber sv) px py pz (elements sv) (0.0, 0.0) with
  | Some acc => Some (Cadd (RtoC acc.1) (Cmul Cj (RtoC acc.2)))
  | None => None
  end.

(** The cells in the order [beamsim] visits them: [iz] outside, [iy] inside. *)
Definition cells_of (n_y n_z : Z) : list (nat * nat) :=
  flat_map (fun iz => map (fun iy => (iy, iz)) (range n_y)) (range n_z).

Definition heap_get (h : heap) (l : loc) (c : nat * nat) : option complex :=
  match h !! l with
  | Some a => getitem a c
  | None => None
  end.

Definition heap_store (h : heap) (l : loc) (c : nat * nat) (v : complex) : exn + heap :=
  match h !! l with
  | None => inl SystemError
  | Some a =>
      match setitem a c v with
      | None => inl IndexError
      | Some a' => inr (<[l := a']> h)
      end
  end.

(** The lengths of the rows of the array at [l]. *)
Definition heap_shape (h : heap) (l : loc) : option (list nat) :=
  match h !! l with
  | Some a => Some ((length <$> a))
  | None => None
  end.

(** The two loops over the cells, on the heap alone. *)
Fixpoint run_cells (val : nat * nat -> option complex) (l : loc)
    (cells : list (nat * nat)) (h : heap) : outcome unit * heap :=
  match cells with
  | [] => (Ret tt, h)
  | c :: cells' =>
      match val c with
      | None => (Raise ZeroDivisionError, h)
      | Some v =>
          match heap_store h l c v with
          | inl e => (Raise e, h)
          | inr h' => run_cells val l cells' h'
          end
      end
  end.

(** The array the plane of the solver refers to. *)
Definition buffer (s : state CueBeamSolver) : option ndarray :=
  arrays s !! pressurefield (rxPlane (self s)).

(** The plane is as its constructor leaves it: the counts are validated and
    the plane refers to an array of [ny] rows and [nz] columns. *)
Definition RxPlane_valid (p : RxPlane) (h : heap) : Prop :=
  nx p = 1%Z /\ (1 <= ny p <= 4096)%Z /\ (1 <= nz p <= 4096)%Z /\
  exists a, h !! pressurefield p = Some a /\
            has_shape a (Z.to_nat (ny p)) (Z.to_nat (nz p)).

(** No transmitter is at a sample point of the plane. *)
Definition no_coincidence (sv : CueBeamSolver) : Prop :=
  forall c e, c ∈ cells_of (ny (rxPlane sv)) (nz (rxPlane sv)) ->
              e ∈ elements sv ->
              let '(px, py, pz) := sample_point (rxPlane sv) c in
              distance_to px py pz e <> 0.

(** ** The arithmetic of the code

    Python floats are binary64 numbers, and addition of binary64 numbers is
    not associative.  [B64] is the body of [beamsim] over Rocq's binary64
    floats, to run the code as it rounds.  Rocq's floats have no cosine and
    sine: [math.cos] and [math.sin] are given by a table [libm]. *)
Module B64.
Import Floats.
#[local] Set Warnings "-inexact-float".
Local Open Scope float_scope.

Record libm : Type := mkLibm {
  m_cos : float -> float;
  m_sin : float -> float
}.

(** [math.cos(v)] and [math.sin(v)]: [ValueError] on an infinite argument. *)
Definition math_cos (m : libm) (v : float) : exn + float :=
  if is_infinity v then inl ValueError else inr (m_cos m v).

Definition math_sin (m : libm) (v : float) : exn + float :=
  if is_infinity v then inl ValueError else inr (m_sin m v).


Record TxElement : Type := mkTxElement {
  x : float;
  y : float;
  z : float;
  amplitude : float;
  phase : float
}.

(** The attributes of the plane [beamsim] reads. *)
Record geometry : Type := mkGeometry {
  x0 : float;
  y0 : float;
  z0 : float;
  dx : float;
  dy : float;
  dz : float;
  ny : Z;
  nz : Z
}.

(** An [int] in a product with a [float]. *)
Definition of_int (n : Z) : float := of_uint63 (Uint63.of_Z n).

(** [a / b]: [ZeroDivisionError] when [b] is 0.0 or -0.0. *)
Definition float_div (a b : float) : exn + float :=
  if b =? 0 then inl ZeroDivisionError else inr (a / b).

(** The loop over the transmitters (lines 94 to 102); [acc] is
    [(pressure_re, pressure_im)]. *)
Fixpoint tx_loop (m : libm) (k pixel_x pixel_y pixel_z : float)
    (els : list TxElement) (acc : float * float) : exn + float * float :=
  match els with
  | [] => inr acc
  | e :: els' =>
      let ddx := pixel_x - x e in
      let ddy := pixel_y - y e in
      let ddz := pixel_z - z e in
      let distance := sqrt (ddx * ddx + ddy * ddy + ddz * ddz) in
      let kphase := (- k) * distance + phase e in
      match float_div (amplitude e) (of_int 2 * 3.14159 * distance) with
      | inl err => inl err
      | inr kamplitude =>
          match math_cos m kphase with
          | inl err => inl err
          | inr c =>
              match math_sin m kphase with
              | inl err => inl err
              | inr sn =>
                  tx_loop m k pixel_x pixel_y pixel_z els'
                          (acc.1 + c * kamplitude, acc.2 + sn * kamplitude)
              end
          end
      end
  end.

Definition Cadd (a b : float * float) : float * float := (a.1 + b.1, a.2 + b.2).

Definition Cmul (a b : float * float) : float * float :=
  (a.1 * b.1 - a.2 * b.2, a.1 * b.2 + a.2 * b.1).

(** The value stored at the cell [(iy, iz)] (lines 89 to 104):
    [pressure_re + 1.0j * pressure_im]. *)
Definition pixel (m : libm) (k : float) (g : geometry) (els : list TxElement)
    (c : nat * nat) : exn + float * float :=
  let pixel_x := x0 g + of_int 0 * dx g in
  let pixel_y := y0 g + of_int (Z.of_nat c.1) * dy g in
  let pixel_z := z0 g + of_int (Z.of_nat c.2) * dz g in
  match tx_loop m k pixel_x pixel_y pixel_z els (0, 0) with
  | inl err => inl err
  | inr acc => inr (Cadd (acc.1, 0) (Cmul (0, 1) (acc.2, 0)))
  end.

Definition setitem (a : list (list (float * float))) (c : nat * nat)
    (v : float * float) : option (list (list (float * float))) :=
  match a !! c.1 with
  | Some row =>
      if decide (c.2 < length row)%nat then Some (<[c.1 := <[c.2 := v]> row]> a)
      else None
  | None => None
  end.

(** The two loops over the cells, on the buffer. *)
Fixpoint run_cells (val : nat * nat -> exn + float * float) (cells : list (nat * nat))
    (a : list (list (float * float))) : outcome unit * list (list (float * float)) :=
  match cells with
  | [] => (Ret tt, a)
  | c :: cells' =>
      match val c with
      | inl err => (Raise err, a)
      | inr v =>
          match setitem a c v with
          | None => (Raise IndexError, a)
          | Some a' => run_cells val cells' a'
          end
      end
  end.

(** [beamsim], on the buffer of the plane. *)
Definition beamsim (m : libm) (k : float) (g : geometry) (els : list TxElement)
    (a : list (list (float * float))) : outcome unit * list (list (float * float)) :=
  run_cells (pixel m k g els) (cells_of (ny g) (nz g)) a.

Definition zeros (rows cols : nat) : list (list (float * float)) :=
  replicate rows (replicate cols (0, 0)).


Definition default_elements : list TxElement :=
  [ mkTxElement 0.0 0.0 (- 15.0e-3) 1.0 0.0;
    mkTxElement 0.0 0.0 (- 10.0e-3) 1.0 0.0;
    mkTxElement 0.0 0.0 (- 5.0e-3) 1.0 0.0;
    mkTxElement 0.0 0.0 0.0e-3 1.0 0.0;
    mkTxElement 0.0 0.0 5.0e-3 1.0 0.0;
    mkTxElement 0.0 0.0 10.0e-3 1.0 0.0;
    mkTxElement 0.0 0.0 15.0e-3 1.0 0.0 ].

(** The cell [(iy, iz)] of a buffer. *)
Definition getitem (a : list (list (float * float))) (c : nat * nat)
  : option (float * float) :=
  match a !! c.1 with
  | Some row => row !! c.2
  | None => None
  end.

End B64.

(** ** Definitions for the statements and the proofs *)

Definition on_heap {O A} (sv : O) (r : outcome A * heap) : outcome A * state O :=
  (r.1, {| self := sv; arrays := r.2 |}).

(** The exception of a write at [c] into an array of the given row lengths,
    if any: it depends on the shape alone. *)
Definition store_error (sh : option (list nat)) (c : nat * nat) : option exn :=
  match sh with
  | None => Some SystemError
  | Some rows =>
      match rows !! c.1 with
      | Some n => if decide (c.2 < n)%nat then None else Some IndexError
      | None => Some IndexError
      end
  end.

(** The cells written before the first exception. *)
Fixpoint visited (val : nat * nat -> option complex) (sh : option (list nat))
    (cells : list (nat * nat)) : list (nat * nat) :=
  match cells with
  | [] => []
  | c :: cells' =>
      match val c, store_error sh c with
      | Some _, None => c :: visited val sh cells'
      | _, _ => []
      end
  end.

(** The field at a sample point: the sum of what the transmitters add. *)
Definition field_at (sv : CueBeamSolver) (c : nat * nat) : complex :=
  let '(px, py, pz) := sample_point (rxPlane sv) c in
  Csum (map (contribution (wavenumber sv) px py pz) (elements sv)).

(** The plane [__init__] builds from valid arguments: [nx] is the class's. *)
Definition plane_of_args (a : RxPlane_args) (l : loc) : RxPlane :=
  {| x0 := a_x0 a; y0 := a_y0 a; z0 := a_z0 a;
     dx := a_dx a; dy := a_dy a; dz := a_dz a;
     nx := 1; ny := a_ny a; nz := a_nz a;
     pressurefield := l |}.

(** The same arguments with other counts. *)
Definition with_counts (a : RxPlane_args) (n_x n_y n_z : Z) : RxPlane_args :=
  {| a_x0 := a_x0 a; a_y0 := a_y0 a; a_z0 := a_z0 a;
     a_dx := a_dx a; a_dy := a_dy a; a_dz := a_dz a;
     a_nx := n_x; a_ny := n_y; a_nz := n_z |}.

Definition raises {A S} (r : outcome A * S) : bool :=
  match r.1 with
  | Raise _ => true
  | Ret _ => false
  end.

(** The array the body of the class [RxPlane] creates. *)
Definition class_heap : heap := [zeros 240 160].

Definition probe_args : RxPlane_args :=
  {| a_x0 := 0.01; a_y0 := 0.0; a_z0 := 0.0;
     a_dx := 0.1e-3; a_dy := 0.1e-3; a_dz := 0.1e-3;
     a_nx := 1; a_ny := 1; a_nz := 1 |}.

Definition probe_plane : RxPlane := plane_of_args probe_args 1.

Definition probe_heap : heap := [zeros 240 160; zeros 1 1].

Definition origin_source : TxElement := mkTxElement 0.0 0.0 0.0 1.0 0.0.

Definition second_source : TxElement := mkTxElement 0.0 0.0 5.0e-3 1.0 0.0.

Definition probe_solver : CueBeamSolver := mkSolver 1000 [origin_source] probe_plane.

(** The value [beamsim] stores for a single source of amplitude [A] and phase
    0 at the distance [d]. *)
Definition code_single_source (A k d : R) : complex :=
  Cscale (A / (2 * 3.14159 * d)) (cos (- k * d), sin (- k * d)).

(** The value the specification gives for it:
    [A / (2 pi d) * (cos (- k d) + i sin (- k d))]. *)
Definition spec_single_source (A k d : R) : complex :=
  Cscale (A / (2 * PI * d)) (cos (- k * d), sin (- k * d)).

(** The reset as the specification words it, in place: after the call, the
    array the plane referred to before the call holds zero in every cell. *)
Definition zeroed_in_place (p : RxPlane) (h : heap) : Prop :=
  forall iy iz, (iy < Z.to_nat (ny p))%nat -> (iz < Z.to_nat (nz p))%nat ->
    heap_get (arrays (clear_pressurefield (mkState p h)).2) (pressurefield p) (iy, iz) =
    Some C0.

(** The arrays after [beamsim] on the single source. *)
Definition probe_heap_solved : heap :=
  arrays (beamsim (mkState probe_solver probe_heap)).2.

(** The solver as the class body leaves it: the class attribute [rxPlane] is
    [RxPlane()], built with the default arguments after the class array. *)
Definition default_plane : RxPlane := plane_of_args RxPlane_default_args 1.

Definition default_heap : heap := [zeros 240 160; zeros 10 10].

Definition default_solver : CueBeamSolver :=
  mkSolver default_wavenumber default_elements default_plane.

(** A transmitter at the sample point of the single-source plane. *)
Definition coincident_source : TxElement := mkTxElement 0.01 0.0 0.0 1.0 0.0.

(** A plane of two sample points, one step apart in y. *)
Definition pair_args : RxPlane_args :=
  {| a_x0 := 0.01; a_y0 := 0.0; a_z0 := 0.0;
     a_dx := 0.1e-3; a_dy := 0.1e-3; a_dz := 0.1e-3;
     a_nx := 1; a_ny := 2; a_nz := 1 |}.

Definition pair_plane : RxPlane := plane_of_args pair_args 1.

Definition pair_heap : heap := [zeros 240 160; zeros 2 1].

(** ** The loops, run *)

Lemma bind_run {S A B} (m : M S A) (f : A -> M S B) (s : S) :
  bind m f s = match m s with
               | (Ret a, s') => f a s'
               | (Raise e, s') => (Raise e, s')
               end.
Proof. reflexivity. Qed.

Lemma tx_step_run px py pz acc itx s e :
  elements (self s) !! itx = Some e ->
  tx_step px py pz acc itx s =
    (if Req_dec_T (2 * 3.14159 * distance_to px py pz e) 0
     then Raise ZeroDivisionError
     else Ret (Cadd acc (contribution (wavenumber (self s)) px py pz e)), s).
Proof.
  intros He. unfold tx_step, bind, gets, float_div. simpl. rewrite He.
  fold (distance_to px py pz e).
  destruct (Req_dec_T (2 * 3.14159 * distance_to px py pz e) 0); reflexivity.
Qed.

Lemma tx_loop_from px py pz s n : forall i acc,
  length (drop i (elements (self s))) = n ->
  foldM (tx_step px py pz) (seq i n) acc s =
    (match tx_sum (wavenumber (self s)) px py pz (drop i (elements (self s))) acc with
     | Some r => Ret r
     | None => Raise ZeroDivisionError
     end, s).
Proof.
  induction n as [|n IH]; intros i acc Hlen.
  - apply nil_length_inv in Hlen. rewrite Hlen. reflexivity.
  - destruct (elements (self s) !! i) as [e|] eqn:He.
    + rewrite (drop_S _ _ _ He) in *. simpl in Hlen.
      simpl. rewrite bind_run, (tx_step_run _ _ _ _ _ _ _ He).
      destruct (Req_dec_T (2 * 3.14159 * distance_to px py pz e) 0); [reflexivity|].
      apply IH. lia.
    + apply lookup_ge_None in He. rewrite drop_ge in Hlen by lia. discriminate.
Qed.

Lemma tx_loop_run px py pz s acc :
  foldM (tx_step px py pz) (range (Z.of_nat (length (elements (self s))))) acc s =
    (match tx_sum (wavenumber (self s)) px py pz (elements (self s)) acc with
     | Some r => Ret r
     | None => Raise ZeroDivisionError
     end, s).
Proof.
  unfold range. rewrite Nat2Z.id.
  rewrite (tx_loop_from px py pz s _ 0%nat acc); [reflexivity|].
  reflexivity.
Qed.

Lemma pixel_step_run iz iy sv h :
  pixel_step 0 iz iy (mkState sv h) =
    match pixel_value sv (iy, iz) with
    | None => (Raise ZeroDivisionError, mkState sv h)
    | Some v =>
        match heap_store h (pressurefield (rxPlane sv)) (iy, iz) v with
        | inl e => (Raise e, mkState sv h)
        | inr h' => (Ret tt, mkState sv h')
        end
    end.
Proof.
  unfold pixel_step. rewrite bind_run. unfold gets at 1. cbv zeta.
  rewrite bind_run. unfold gets at 1. rewrite bind_run.
  rewrite (tx_loop_run _ _ _ (mkState sv h)).
  unfold pixel_value, sample_point. simpl.
  destruct (tx_sum _ _ _ _ _ _) as [acc|]; [|reflexivity].
  unfold store_pressurefield, heap_store. simpl.
  destruct (h !! pressurefield (rxPlane sv)) as [a|]; [|reflexivity].
  destruct (setitem a (iy, iz) _); reflexivity.
Qed.

Lemma run_cells_app val l cells1 cells2 h :
  run_cells val l (cells1 ++ cells2) h =
    match run_cells val l cells1 h with
    | (Ret _, h') => run_cells val l cells2 h'
    | (Raise e, h') => (Raise e, h')
    end.
Proof.
  revert h. induction cells1 as [|c cells1 IH]; intros h; simpl; [reflexivity|].
  destruct (val c) as [v|]; [|reflexivity].
  destruct (heap_store h l c v) as [e|h']; [reflexivity|]. apply IH.
Qed.

Lemma row_loop_run iz sv iys : forall h,
  foldM (fun _ iy => pixel_step 0 iz iy) iys tt (mkState sv h) =
    on_heap sv (run_cells (pixel_value sv) (pressurefield (rxPlane sv))
                          (map (fun iy => (iy, iz)) iys) h).
Proof.
  induction iys as [|iy iys IH]; intros h; [reflexivity|].
  simpl. rewrite bind_run, pixel_step_run.
  destruct (pixel_value sv (iy, iz)) as [v|]; [|reflexivity].
  destruct (heap_store h _ (iy, iz) v) as [e|h']; [reflexivity|]. apply IH.
Qed.

Lemma plane_loop_run sv n_y izs : forall h,
  ny (rxPlane sv) = n_y ->
  foldM (fun _ iz =>
           n_y <- gets (fun s => ny (rxPlane (self s))) ;;
           foldM (fun _ iy => pixel_step 0 iz iy) (range n_y) tt)
        izs tt (mkState sv h) =
    on_heap sv (run_cells (pixel_value sv) (pressurefield (rxPlane sv))
                          (flat_map (fun iz => map (fun iy => (iy, iz)) (range n_y)) izs) h).
Proof.
  intros h Hny. subst n_y. revert h.
  induction izs as [|iz izs IH]; intros h; [reflexivity|].
  simpl. rewrite run_cells_app, bind_run, bind_run. unfold gets at 1.
  simpl. rewrite row_loop_run. unfold on_heap at 1.
  destruct (run_cells _ _ (map _ _) h) as [[[]|e] h']; simpl; [apply IH|reflexivity].
Qed.

(** [beamsim] is the run of the cells on the heap; the solver object is as it
    was. *)
Lemma beamsim_run sv h :
  beamsim (mkState sv h) =
    on_heap sv (run_cells (pixel_value sv) (pressurefield (rxPlane sv))
                          (cells_of (ny (rxPlane sv)) (nz (rxPlane sv))) h).
Proof.
  unfold beamsim. cbv zeta. rewrite bind_run. unfold gets at 1.
  simpl. apply plane_loop_run. reflexivity.
Qed.

(** ** Reads and writes of arrays *)

Lemma setitem_shape a c v a' :
  setitem a c v = Some a' -> (length <$> a') = (length <$> a).
Proof.
  unfold setitem. destruct (a !! c.1) as [row|] eqn:Hrow; [|discriminate].
  destruct (decide (c.2 < length row)%nat); [|discriminate].
  intros [= <-]. rewrite list_fmap_insert, length_insert.
  apply list_insert_id. rewrite list_lookup_fmap, Hrow. reflexivity.
Qed.

Lemma setitem_get_eq a c v a' :
  setitem a c v = Some a' -> getitem a' c = Some v.
Proof.
  unfold setitem, getitem. destruct (a !! c.1) as [row|] eqn:Hrow; [|discriminate].
  destruct (decide (c.2 < length row)%nat) as [Hlt|]; [|discriminate].
  intros [= <-]. apply lookup_lt_Some in Hrow.
  rewrite list_lookup_insert_eq by assumption.
  apply list_lookup_insert_eq. assumption.
Qed.

Lemma setitem_get_ne a c v a' c' :
  setitem a c v = Some a' -> c' <> c -> getitem a' c' = getitem a c'.
Proof.
  unfold setitem, getitem. destruct (a !! c.1) as [row|] eqn:Hrow; [|discriminate].
  destruct (decide (c.2 < length row)%nat) as [Hlt|]; [|discriminate].
  intros [= <-] Hne. destruct (decide (c'.1 = c.1)) as [E1|N1].
  - rewrite E1, Hrow. apply lookup_lt_Some in Hrow.
    rewrite list_lookup_insert_eq by assumption.
    apply list_lookup_insert_ne. intros E2. apply Hne.
    destruct c, c'; simpl in *; congruence.
  - rewrite list_lookup_insert_ne by congruence. reflexivity.
Qed.

Lemma setitem_id a c v : getitem a c = Some v -> setitem a c v = Some a.
Proof.
  unfold setitem, getitem. destruct (a !! c.1) as [row|] eqn:Hrow; [|discriminate].
  intros Hv. destruct (decide (c.2 < length row)%nat) as [Hlt|Hge].
  - rewrite (list_insert_id row _ _ Hv), (list_insert_id a _ _ Hrow). reflexivity.
  - apply lookup_lt_Some in Hv. contradiction.
Qed.

Lemma heap_shape_insert h l a a' :
  h !! l = Some a -> (length <$> a') = (length <$> a) ->
  heap_shape (<[l := a']> h) l = heap_shape h l.
Proof.
  intros Hl Hsh. unfold heap_shape.
  rewrite list_lookup_insert_eq by (eapply lookup_lt_Some; eassumption).
  rewrite Hl, Hsh. reflexivity.
Qed.

(** What a write does: either the exception the shape determines, or the new
    value at [c] and nothing else changed. *)
Lemma heap_store_spec h l c v :
  match heap_store h l c v with
  | inl e => store_error (heap_shape h l) c = Some e
  | inr h' =>
      store_error (heap_shape h l) c = None /\
      heap_shape h' l = heap_shape h l /\
      length h' = length h /\
      heap_get h' l c = Some v /\
      (forall c', c' <> c -> heap_get h' l c' = heap_get h l c') /\
      (forall l', l' <> l -> h' !! l' = h !! l')
  end.
Proof.
  unfold heap_store, heap_shape, heap_get, store_error.
  destruct (h !! l) as [a|] eqn:Hl; [|reflexivity].
  rewrite list_lookup_fmap.
  destruct (setitem a c v) as [a'|] eqn:Hset.
  - pose proof (lookup_lt_Some _ _ _ Hl) as Hlt.
    rewrite list_lookup_insert_eq by assumption.
    rewrite (setitem_shape _ _ _ _ Hset), (setitem_get_eq _ _ _ _ Hset).
    split; [|split; [|split; [|split; [|split]]]].
    + unfold setitem in Hset. destruct (a !! c.1) as [row|]; [|discriminate].
      simpl. destruct (decide (c.2 < length row)%nat); [reflexivity|discriminate].
    + reflexivity.
    + apply length_insert.
    + reflexivity.
    + intros c' Hne. apply (setitem_get_ne _ _ _ _ _ Hset Hne).
    + intros l' Hne. apply list_lookup_insert_ne. congruence.
  - unfold setitem in Hset. destruct (a !! c.1) as [row|]; [|reflexivity].
    simpl. destruct (decide (c.2 < length row)%nat); [discriminate|reflexivity].
Qed.

Lemma heap_store_id h l c v : heap_get h l c = Some v -> heap_store h l c v = inr h.
Proof.
  unfold heap_get, heap_store. destruct (h !! l) as [a|] eqn:Hl; [|discriminate].
  intros Hv. rewrite (setitem_id _ _ _ Hv), (list_insert_id _ _ _ Hl). reflexivity.
Qed.

(** A write succeeds or fails alike on two heaps with the same shape at [l]. *)
Lemma heap_store_error h l c v e :
  heap_store h l c v = inl e <-> store_error (heap_shape h l) c = Some e.
Proof.
  pose proof (heap_store_spec h l c v) as H.
  destruct (heap_store h l c v) as [e'|h'].
  - rewrite H. split; congruence.
  - destruct H as [H _]. rewrite H. split; discriminate.
Qed.

(** ** The run of the cells *)

Section RunCells.
Variable val : nat * nat -> option complex.
Variable l : nat.

(** A run changes the array at [l] only, and not its shape. *)
Lemma run_cells_frame cells : forall h,
  length (run_cells val l cells h).2 = length h /\
  heap_shape (run_cells val l cells h).2 l = heap_shape h l /\
  forall l', l' <> l -> (run_cells val l cells h).2 !! l' = h !! l'.
Proof.
  induction cells as [|c cells IH]; intros h; simpl; [auto|].
  destruct (val c) as [v|]; [|auto].
  pose proof (heap_store_spec h l c v) as Hst.
  destruct (heap_store h l c v) as [e|h']; [auto|].
  destruct Hst as (_ & Hsh & Hlen & _ & _ & Hother).
  destruct (IH h') as (IH1 & IH2 & IH3).
  split; [congruence|]. split; [congruence|].
  intros l' Hne. rewrite IH3, Hother by assumption. reflexivity.
Qed.

(** A cell that holds its value keeps it. *)
Lemma run_cells_keeps cells c v : forall h,
  val c = Some v -> heap_get h l c = Some v ->
  heap_get (run_cells val l cells h).2 l c = Some v.
Proof.
  induction cells as [|c1 cells IH]; intros h Hval Hget; simpl; [assumption|].
  destruct (val c1) as [v1|] eqn:Hv1; [|assumption].
  pose proof (heap_store_spec h l c1 v1) as Hst.
  destruct (heap_store h l c1 v1) as [e|h']; [assumption|].
  destruct Hst as (_ & _ & _ & Hnew & Hold & _).
  apply IH; [assumption|].
  destruct (decide (c = c1)) as [->|Hne]; [congruence|].
  rewrite Hold by assumption. assumption.
Qed.

(** After a run, every cell written holds the value of the solver. *)
Lemma run_cells_visited cells : forall h c,
  c ∈ visited val (heap_shape h l) cells ->
  heap_get (run_cells val l cells h).2 l c = val c.
Proof.
  induction cells as [|c1 cells IH]; intros h c Hin; simpl in *.
  - inversion Hin.
  - destruct (val c1) as [v1|] eqn:Hv1; [|inversion Hin].
    pose proof (heap_store_spec h l c1 v1) as Hst.
    destruct (heap_store h l c1 v1) as [e|h'].
    + rewrite Hst in Hin. inversion Hin.
    + destruct Hst as (Herr & Hsh & _ & Hnew & _ & _).
      rewrite Herr in Hin. apply elem_of_cons in Hin as [->|Hin].
      * rewrite Hv1. apply run_cells_keeps; assumption.
      * apply IH. rewrite Hsh. assumption.
Qed.

(** On a heap of the same shape whose written cells already hold their
    values, the run ends the same way and changes nothing. *)
Lemma run_cells_settled cells : forall h b,
  heap_shape b l = heap_shape h l ->
  (forall c, c ∈ visited val (heap_shape h l) cells -> heap_get b l c = val c) ->
  run_cells val l cells b = ((run_cells val l cells h).1, b).
Proof.
  induction cells as [|c1 cells IH]; intros h b Hsh Hvis; simpl in *; [reflexivity|].
  destruct (val c1) as [v1|] eqn:Hv1; [|reflexivity].
  pose proof (heap_store_spec h l c1 v1) as Hst.
  destruct (heap_store h l c1 v1) as [e|h'].
  - rewrite <- Hsh in Hst.
    rewrite (proj2 (heap_store_error b l c1 v1 e) Hst). reflexivity.
  - destruct Hst as (Herr & Hsh' & _). rewrite Herr in Hvis.
    rewrite (heap_store_id b l c1 v1).
    + apply IH; [congruence|]. intros c Hin. apply Hvis.
      apply elem_of_cons. right. rewrite <- Hsh'. assumption.
    + rewrite <- Hv1. apply Hvis. apply elem_of_cons. left. reflexivity.
Qed.

(** A second run changes nothing. *)
Lemma run_cells_idempotent cells h :
  run_cells val l cells (run_cells val l cells h).2 = run_cells val l cells h.
Proof.
  rewrite (run_cells_settled cells h).
  - destruct (run_cells val l cells h); reflexivity.
  - apply run_cells_frame.
  - intros c Hin. apply run_cells_visited. assumption.
Qed.

(** When every cell has a value and is in bounds, the run returns and
    writes every cell. *)
Lemma run_cells_total cells : forall h,
  (forall c, c ∈ cells -> is_Some (val c) /\ store_error (heap_shape h l) c = None) ->
  (run_cells val l cells h).1 = Ret tt /\
  visited val (heap_shape h l) cells = cells.
Proof.
  induction cells as [|c1 cells IH]; intros h Hall; simpl; [auto|].
  destruct (Hall c1) as [[v1 Hv1] Herr]; [apply elem_of_cons; auto|].
  rewrite Hv1, Herr.
  pose proof (heap_store_spec h l c1 v1) as Hst.
  destruct (heap_store h l c1 v1) as [e|h']; [congruence|].
  destruct Hst as (_ & Hsh & _).
  destruct (IH h') as [IH1 IH2].
  - intros c Hin. rewrite Hsh. apply Hall. apply elem_of_cons. auto.
  - split; [assumption|]. rewrite <- Hsh, IH2. reflexivity.
Qed.
End RunCells.


(** ** Cells and bounds *)

Lemma elem_of_cells_of n_y n_z iy iz :
  (iy, iz) ∈ cells_of n_y n_z <-> (iy < Z.to_nat n_y)%nat /\ (iz < Z.to_nat n_z)%nat.
Proof.
  unfold cells_of, range. rewrite list_elem_of_In, in_flat_map. split.
  - intros (j & Hj & Hin). apply in_map_iff in Hin as (i & [= <- <-] & Hi).
    apply in_seq in Hj. apply in_seq in Hi. lia.
  - intros [Hy Hz]. exists iz. split; [apply in_seq; lia|].
    apply in_map_iff. exists iy. split; [reflexivity|apply in_seq; lia].
Qed.

Lemma store_error_in_shape (a : ndarray) rows cols iy iz :
  has_shape a rows cols -> (iy < rows)%nat -> (iz < cols)%nat ->
  store_error (Some (length <$> a)) (iy, iz) = None.
Proof.
  intros [Hrows Hcols] Hy Hz. unfold store_error. simpl.
  rewrite list_lookup_fmap.
  destruct (a !! iy) as [row|] eqn:Hrow.
  - simpl. rewrite Forall_forall in Hcols.
    rewrite (Hcols row) by (eapply list_elem_of_lookup_2; eassumption).
    destruct (decide (iz < cols)%nat); [reflexivity|contradiction].
  - apply lookup_ge_None in Hrow. lia.
Qed.

Lemma has_shape_of_lengths (a b : ndarray) rows cols :
  length <$> b = length <$> a -> has_shape a rows cols -> has_shape b rows cols.
Proof.
  intros Hsh [Hrows Hcols]. split.
  - rewrite <- Hrows, <- (length_fmap length b), Hsh. apply length_fmap.
  - apply (Forall_fmap length (fun n => n = cols)).
    apply (Forall_fmap length (fun n => n = cols)) in Hcols.
    rewrite Hsh. assumption.
Qed.

Lemma zeros_shape rows cols : has_shape (zeros rows cols) rows cols.
Proof.
  unfold zeros. split; [apply length_replicate|].
  apply Forall_replicate. apply length_replicate.
Qed.

Lemma zeros_get rows cols iy iz :
  (iy < rows)%nat -> (iz < cols)%nat -> getitem (zeros rows cols) (iy, iz) = Some C0.
Proof.
  intros Hy Hz. unfold getitem, zeros. simpl.
  rewrite lookup_replicate_2 by assumption. apply lookup_replicate_2. assumption.
Qed.

(** ** The sum over the transmitters *)

Lemma Cadd_assoc a b c : Cadd (Cadd a b) c = Cadd a (Cadd b c).
Proof. unfold Cadd. simpl. f_equal; ring. Qed.


Lemma Cadd_0_l a : Cadd (0.0, 0.0) a = a.
Proof. destruct a. unfold Cadd. simpl. f_equal; lra. Qed.

Lemma Cadd_0_r a : Cadd a C0 = a.
Proof. destruct a. unfold Cadd, C0. simpl. f_equal; ring. Qed.

(** [pressure_re + 1.0j * pressure_im] has the two accumulators as its
    parts. *)
Lemma complex_of_parts acc : Cadd (RtoC acc.1) (Cmul Cj (RtoC acc.2)) = acc.
Proof. destruct acc. unfold Cadd, Cmul, Cj, RtoC. simpl. f_equal; ring. Qed.

Lemma tx_sum_no_zero k px py pz els : forall acc,
  Forall (fun e => distance_to px py pz e <> 0) els ->
  tx_sum k px py pz els acc = Some (Cadd acc (Csum (map (contribution k px py pz) els))).
Proof.
  induction els as [|e els IH]; intros acc Hall; simpl.
  - rewrite Cadd_0_r. reflexivity.
  - apply Forall_cons in Hall as [He Hall].
    destruct (Req_dec_T (2 * 3.14159 * distance_to px py pz e) 0) as [E|_].
    + exfalso. apply He. lra.
    + rewrite IH by assumption. rewrite Cadd_assoc. reflexivity.
Qed.

Lemma tx_sum_zero k px py pz els : forall acc,
  Exists (fun e => distance_to px py pz e = 0) els ->
  tx_sum k px py pz els acc = None.
Proof.
  induction els as [|e els IH]; intros acc Hex; simpl.
  - inversion Hex.
  - destruct (Req_dec_T (2 * 3.14159 * distance_to px py pz e) 0) as [E|N]; [reflexivity|].
    apply Exists_cons in Hex as [He|Hex]; [|apply IH; assumption].
    exfalso. apply N. rewrite He. ring.
Qed.



Lemma pixel_value_field sv c :
  c ∈ cells_of (ny (rxPlane sv)) (nz (rxPlane sv)) ->
  no_coincidence sv ->
  pixel_value sv c = Some (field_at sv c).
Proof.
  intros Hc Hno. unfold pixel_value, field_at.
  assert (Hall : Forall (fun e => let '(px, py, pz) := sample_point (rxPlane sv) c in
                                  distance_to px py pz e <> 0) (elements sv)).
  { apply Forall_forall. intros e He. apply (Hno c e Hc He). }
  destruct (sample_point (rxPlane sv) c) as [[px py] pz].
  rewrite tx_sum_no_zero by assumption.
  rewrite Cadd_0_l, complex_of_parts. reflexivity.
Qed.

(** ** The constructor *)

Arguments zeros : simpl never.

Lemma RxPlane_init_run cb a h :
  RxPlane_init a (mkState (RxPlane_class cb) h) =
    if negb (Z.eqb (a_nx a) 1) then
      (Raise (AttributeError msg_nx),
       mkState (with_spacing (a_dx a) (a_dy a) (a_dz a)
                  (with_origin (a_x0 a) (a_y0 a) (a_z0 a) (RxPlane_class cb))) h)
    else if (Z.gtb (a_ny a) 4096 || Z.ltb (a_ny a) 1)%bool then
      (Raise (AttributeError msg_ny),
       mkState (with_spacing (a_dx a) (a_dy a) (a_dz a)
                  (with_origin (a_x0 a) (a_y0 a) (a_z0 a) (RxPlane_class cb))) h)
    else if (Z.gtb (a_nz a) 4096 || Z.ltb (a_nz a) 1)%bool then
      (Raise (AttributeError msg_nz),
       mkState (with_ny (a_ny a)
                  (with_spacing (a_dx a) (a_dy a) (a_dz a)
                     (with_origin (a_x0 a) (a_y0 a) (a_z0 a) (RxPlane_class cb)))) h)
    else
      (Ret tt,
       mkState (plane_of_args a (length h))
               (h ++ [zeros (Z.to_nat (a_ny a)) (Z.to_nat (a_nz a))])).
Proof.
  unfold RxPlane_init, set_self, modify, bind. simpl.
  destruct (negb (Z.eqb (a_nx a) 1)); simpl; [reflexivity|].
  destruct (Z.gtb (a_ny a) 4096 || Z.ltb (a_ny a) 1)%bool eqn:Hy; simpl; [reflexivity|].
  destruct (Z.gtb (a_nz a) 4096 || Z.ltb (a_nz a) 1)%bool eqn:Hz; simpl; [reflexivity|].
  unfold clear_pressurefield, bind, gets, numpy_zeros. simpl.
  assert (Hy' : Z.ltb (a_ny a) 0 = false) by lia.
  assert (Hz' : Z.ltb (a_nz a) 0 = false) by lia.
  rewrite Hy', Hz'. reflexivity.
Qed.

Lemma RxPlane_new_run cb a h :
  RxPlane_new cb a h =
    if negb (Z.eqb (a_nx a) 1) then (Raise (AttributeError msg_nx), h)
    else if (Z.gtb (a_ny a) 4096 || Z.ltb (a_ny a) 1)%bool then
      (Raise (AttributeError msg_ny), h)
    else if (Z.gtb (a_nz a) 4096 || Z.ltb (a_nz a) 1)%bool then
      (Raise (AttributeError msg_nz), h)
    else (Ret (plane_of_args a (length h)),
          h ++ [zeros (Z.to_nat (a_ny a)) (Z.to_nat (a_nz a))]).
Proof.
  unfold RxPlane_new. rewrite RxPlane_init_run.
  destruct (negb (Z.eqb (a_nx a) 1)); [reflexivity|].
  destruct (Z.gtb (a_ny a) 4096 || Z.ltb (a_ny a) 1)%bool; [reflexivity|].
  destruct (Z.gtb (a_nz a) 4096 || Z.ltb (a_nz a) 1)%bool; reflexivity.
Qed.

(** A plane the constructor returns is valid. *)
Lemma RxPlane_new_valid cb a h p h' :
  RxPlane_new cb a h = (Ret p, h') ->
  p = plane_of_args a (length h) /\
  h' = h ++ [zeros (Z.to_nat (a_ny a)) (Z.to_nat (a_nz a))] /\
  RxPlane_valid p h'.
Proof.
  rewrite RxPlane_new_run.
  destruct (negb (Z.eqb (a_nx a) 1)); [discriminate|].
  destruct (Z.gtb (a_ny a) 4096 || Z.ltb (a_ny a) 1)%bool eqn:Hy; [discriminate|].
  destruct (Z.gtb (a_nz a) 4096 || Z.ltb (a_nz a) 1)%bool eqn:Hz; [discriminate|].
  intros [= <- <-]. split; [reflexivity|]. split; [reflexivity|].
  unfold RxPlane_valid. simpl. split; [reflexivity|].
  split; [lia|]. split; [lia|].
  exists (zeros (Z.to_nat (a_ny a)) (Z.to_nat (a_nz a))). split.
  - rewrite lookup_app_r by lia. rewrite Nat.sub_diag. reflexivity.
  - apply zeros_shape.
Qed.

(** C2. The constructor raises exactly when [nx] is not 1 or [ny] or [nz] is
    outside [1, 4096]; the exception is the [AttributeError] whose message
    names a parameter that is invalid; at the boundaries, [nx = 2], [ny = 0]
    and [ny = 4097] fail and [ny = 4096] succeeds, and the same for [nz]. *)
Theorem RxPlane_new_validation cb a h :
  (raises (RxPlane_new cb a h) = true <->
   a_nx a <> 1%Z \/ ~ (1 <= a_ny a <= 4096)%Z \/ ~ (1 <= a_nz a <= 4096)%Z) /\
  (forall e, (RxPlane_new cb a h).1 = Raise e ->
     e = AttributeError msg_nx /\ a_nx a <> 1%Z \/
     e = AttributeError msg_ny /\ ~ (1 <= a_ny a <= 4096)%Z \/
     e = AttributeError msg_nz /\ ~ (1 <= a_nz a <= 4096)%Z) /\
  (String.prefix "nx" msg_nx = true /\ String.prefix "ny" msg_ny = true /\
   String.prefix "nz" msg_nz = true) /\
  (raises (RxPlane_new cb (with_counts a 2 10 10) h) = true /\
   raises (RxPlane_new cb (with_counts a 1 0 10) h) = true /\
   raises (RxPlane_new cb (with_counts a 1 4096 10) h) = false /\
   raises (RxPlane_new cb (with_counts a 1 4097 10) h) = true /\
   raises (RxPlane_new cb (with_counts a 1 10 0) h) = true /\
   raises (RxPlane_new cb (with_counts a 1 10 4096) h) = false /\
   raises (RxPlane_new cb (with_counts a 1 10 4097) h) = true).
Proof.
  split; [|split; [|split]].
  - rewrite RxPlane_new_run. unfold raises.
    destruct (Z.eqb_spec (a_nx a) 1) as [Hx|Hx]; simpl; [|tauto].
    destruct (Z.gtb (a_ny a) 4096 || Z.ltb (a_ny a) 1)%bool eqn:Hy; simpl.
    { split; [intros _|reflexivity]. right. left. lia. }
    destruct (Z.gtb (a_nz a) 4096 || Z.ltb (a_nz a) 1)%bool eqn:Hz; simpl.
    { split; [intros _|reflexivity]. right. right. lia. }
    split; [discriminate|]. intros [?|[?|?]]; [contradiction|lia|lia].
  - intros e. rewrite RxPlane_new_run.
    destruct (Z.eqb_spec (a_nx a) 1) as [Hx|Hx]; simpl.
    2:{ intros [= <-]. left. auto. }
    destruct (Z.gtb (a_ny a) 4096 || Z.ltb (a_ny a) 1)%bool eqn:Hy; simpl.
    { intros [= <-]. right. left. split; [reflexivity|lia]. }
    destruct (Z.gtb (a_nz a) 4096 || Z.ltb (a_nz a) 1)%bool eqn:Hz; simpl.
    { intros [= <-]. right. right. split; [reflexivity|lia]. }
    discriminate.
  - repeat split; reflexivity.
  - rewrite !RxPlane_new_run. repeat split; reflexivity.
Qed.

(** C3. When the arguments fail validation, the constructor call raises and
    gives the caller no plane; no array is allocated: the arrays are as they
    were, and the instance [__init__] was working on still has the class's
    buffer, not one of its own. *)
Theorem RxPlane_new_atomic cb a h :
  a_nx a <> 1%Z \/ ~ (1 <= a_ny a <= 4096)%Z \/ ~ (1 <= a_nz a <= 4096)%Z ->
  (exists e, RxPlane_new cb a h = (Raise e, h)) /\
  arrays (RxPlane_init a (mkState (RxPlane_class cb) h)).2 = h /\
  pressurefield (self (RxPlane_init a (mkState (RxPlane_class cb) h)).2) = cb.
Proof.
  intros Hinv. rewrite RxPlane_new_run, RxPlane_init_run.
  destruct (Z.eqb_spec (a_nx a) 1) as [Hx|Hx]; simpl; [|eauto].
  destruct (Z.gtb (a_ny a) 4096 || Z.ltb (a_ny a) 1)%bool eqn:Hy; simpl; [eauto|].
  destruct (Z.gtb (a_nz a) 4096 || Z.ltb (a_nz a) 1)%bool eqn:Hz; simpl; [eauto|].
  exfalso. destruct Hinv as [?|[?|?]]; [contradiction|lia|lia].
Qed.

Lemma RxPlane_new_atomic_witness :
  (a_nx (with_counts RxPlane_default_args 1 4097 10) <> 1%Z \/
   ~ (1 <= a_ny (with_counts RxPlane_default_args 1 4097 10) <= 4096)%Z \/
   ~ (1 <= a_nz (with_counts RxPlane_default_args 1 4097 10) <= 4096)%Z) /\
  ((exists e, RxPlane_new 0 (with_counts RxPlane_default_args 1 4097 10)
                [zeros 240 160] = (Raise e, [zeros 240 160])) /\
   arrays (RxPlane_init (with_counts RxPlane_default_args 1 4097 10)
             (mkState (RxPlane_class 0) [zeros 240 160])).2 = [zeros 240 160] /\
   pressurefield (self (RxPlane_init (with_counts RxPlane_default_args 1 4097 10)
                          (mkState (RxPlane_class 0) [zeros 240 160])).2) = 0%nat).
Proof.
  split.
  - right. left. simpl. lia.
  - apply (RxPlane_new_atomic 0 (with_counts RxPlane_default_args 1 4097 10)
             [zeros 240 160]).
    right. left. simpl. lia.
Defined.

(** ** [beamsim] on a valid plane *)

Lemma valid_in_bounds p h c :
  RxPlane_valid p h -> c ∈ cells_of (ny p) (nz p) ->
  store_error (heap_shape h (pressurefield p)) c = None.
Proof.
  intros (_ & _ & _ & a & Ha & Hshape) Hc. destruct c as [iy iz].
  apply elem_of_cells_of in Hc as [Hy Hz].
  unfold heap_shape. rewrite Ha. eapply store_error_in_shape; eassumption.
Qed.

(** When no cell divides by zero, [beamsim] returns and every cell of the
    plane holds the value of the solver. *)
Lemma beamsim_returns sv h :
  RxPlane_valid (rxPlane sv) h ->
  (forall c, c ∈ cells_of (ny (rxPlane sv)) (nz (rxPlane sv)) -> is_Some (pixel_value sv c)) ->
  (beamsim (mkState sv h)).1 = Ret tt /\
  forall c, c ∈ cells_of (ny (rxPlane sv)) (nz (rxPlane sv)) ->
    heap_get (arrays (beamsim (mkState sv h)).2) (pressurefield (rxPlane sv)) c =
    pixel_value sv c.
Proof.
  intros Hvalid Hval. rewrite beamsim_run. unfold on_heap. simpl.
  destruct (run_cells_total (pixel_value sv) (pressurefield (rxPlane sv))
              (cells_of (ny (rxPlane sv)) (nz (rxPlane sv))) h) as [Hret Hvis].
  { intros c Hc. split; [apply Hval; assumption|].
    apply valid_in_bounds; assumption. }
  split; [assumption|].
  intros c Hc. apply run_cells_visited. rewrite Hvis. assumption.
Qed.

(** The closed form of the field: with no transmitter at a sample point,
    [beamsim] returns and every cell holds the sum of the contributions of the
    transmitters, each [amplitude / (2 * 3.14159 * d)] times
    [cos (- k * d + phase) + i sin (- k * d + phase)]. *)
Lemma beamsim_closed_form sv h :
  RxPlane_valid (rxPlane sv) h -> no_coincidence sv ->
  (beamsim (mkState sv h)).1 = Ret tt /\
  forall c, c ∈ cells_of (ny (rxPlane sv)) (nz (rxPlane sv)) ->
    heap_get (arrays (beamsim (mkState sv h)).2) (pressurefield (rxPlane sv)) c =
    Some (field_at sv c).
Proof.
  intros Hvalid Hno.
  destruct (beamsim_returns sv h Hvalid) as [Hret Hcells].
  { intros c Hc. rewrite pixel_value_field by assumption. eauto. }
  split; [assumption|].
  intros c Hc. rewrite Hcells by assumption. apply pixel_value_field; assumption.
Qed.

(** [beamsim] keeps a valid plane valid. *)
Lemma beamsim_keeps_valid sv h :
  RxPlane_valid (rxPlane sv) h ->
  RxPlane_valid (rxPlane sv) (arrays (beamsim (mkState sv h)).2).
Proof.
  intros (Hx & Hy & Hz & a & Ha & Hshape). rewrite beamsim_run.
  unfold on_heap. simpl. repeat (split; [assumption|]).
  destruct (run_cells_frame (pixel_value sv) (pressurefield (rxPlane sv))
              (cells_of (ny (rxPlane sv)) (nz (rxPlane sv))) h) as (_ & Hsh & _).
  unfold heap_shape in Hsh. rewrite Ha in Hsh.
  destruct ((run_cells _ _ _ h).2 !! pressurefield (rxPlane sv)) as [a'|];
    [|discriminate].
  exists a'. split; [reflexivity|].
  injection Hsh as Hsh. eapply has_shape_of_lengths; eassumption.
Qed.

(** [beamsim] leaves the solver object as it was. *)
Lemma beamsim_frame_run sv h :
  self (beamsim (mkState sv h)).2 = sv /\
  length (arrays (beamsim (mkState sv h)).2) = length h /\
  forall l, l <> pressurefield (rxPlane sv) ->
            arrays (beamsim (mkState sv h)).2 !! l = h !! l.
Proof.
  rewrite beamsim_run. unfold on_heap. simpl.
  destruct (run_cells_frame (pixel_value sv) (pressurefield (rxPlane sv))
              (cells_of (ny (rxPlane sv)) (nz (rxPlane sv))) h) as (Hlen & _ & Hother).
  auto.
Qed.

(** ** How a run ends *)

Section RunOutcome.
Variable val : nat * nat -> option complex.
Variable l : nat.

(** A cell that is not written holds what it held. *)
Lemma run_cells_untouched cells : forall h c,
  c ∉ visited val (heap_shape h l) cells ->
  heap_get (run_cells val l cells h).2 l c = heap_get h l c.
Proof.
  induction cells as [|c1 cells IH]; intros h c Hnot; simpl in *; [reflexivity|].
  destruct (val c1) as [v1|] eqn:Hv1; [|reflexivity].
  pose proof (heap_store_spec h l c1 v1) as Hst.
  destruct (heap_store h l c1 v1) as [e|h']; [reflexivity|].
  destruct Hst as (Herr & Hsh & _ & _ & Hold & _).
  rewrite Herr in Hnot. apply not_elem_of_cons in Hnot as [Hne Hnot].
  rewrite IH by (rewrite Hsh; assumption). apply Hold. assumption.
Qed.

(** A run returns exactly when every cell has a value and is in bounds. *)
Lemma run_cells_returns_iff cells : forall h,
  (run_cells val l cells h).1 = Ret tt <->
  forall c, c ∈ cells -> is_Some (val c) /\ store_error (heap_shape h l) c = None.
Proof.
  intros h. split; [|intros Hall; apply run_cells_total; assumption].
  revert h. induction cells as [|c1 cells IH]; intros h Hret c Hin; simpl in *.
  - inversion Hin.
  - destruct (val c1) as [v1|] eqn:Hv1; [|discriminate].
    pose proof (heap_store_spec h l c1 v1) as Hst.
    destruct (heap_store h l c1 v1) as [e|h']; [discriminate|].
    destruct Hst as (Herr & Hsh & _).
    apply elem_of_cons in Hin as [->|Hin].
    + rewrite Hv1. split; [eauto|assumption].
    + rewrite <- Hsh. apply (IH h'); assumption.
Qed.

(** The exception of a run is that of one of its cells. *)
Lemma run_cells_raises cells : forall h e,
  (run_cells val l cells h).1 = Raise e ->
  (e = ZeroDivisionError /\ exists c, c ∈ cells /\ val c = None) \/
  (exists c, c ∈ cells /\ store_error (heap_shape h l) c = Some e).
Proof.
  induction cells as [|c1 cells IH]; intros h e Hraise; simpl in *; [discriminate|].
  destruct (val c1) as [v1|] eqn:Hv1.
  - pose proof (heap_store_spec h l c1 v1) as Hst.
    destruct (heap_store h l c1 v1) as [e'|h'].
    + injection Hraise as <-. right. exists c1. split; [apply elem_of_cons; auto|assumption].
    + destruct Hst as (_ & Hsh & _).
      destruct (IH h' e Hraise) as [[-> (c & Hin & Hc)]|(c & Hin & Hc)].
      * left. split; [reflexivity|]. exists c. split; [apply elem_of_cons; auto|assumption].
      * right. exists c. split; [apply elem_of_cons; auto|]. rewrite <- Hsh. assumption.
  - injection Hraise as <-. left. split; [reflexivity|].
    exists c1. split; [apply elem_of_cons; auto|assumption].
Qed.

(** The first cell that fails ends the run: the cells before it are the ones
    written. *)
Lemma visited_stop sh pre c post :
  (forall c', c' ∈ pre -> is_Some (val c') /\ store_error sh c' = None) ->
  val c = None \/ is_Some (store_error sh c) ->
  visited val sh (pre ++ c :: post) = pre.
Proof.
  induction pre as [|c1 pre IH]; intros Hpre Hc; simpl.
  - destruct Hc as [->|[e ->]]; [reflexivity|]. destruct (val c); reflexivity.
  - destruct (Hpre c1) as [[v1 ->] ->]; [apply elem_of_cons; auto|].
    rewrite IH; [reflexivity| |assumption].
    intros c' Hin. apply Hpre. apply elem_of_cons. auto.
Qed.

Lemma run_cells_stop pre c post : forall h,
  (forall c', c' ∈ pre -> is_Some (val c') /\ store_error (heap_shape h l) c' = None) ->
  (run_cells val l (pre ++ c :: post) h).1 =
    match val c, store_error (heap_shape h l) c with
    | None, _ => Raise ZeroDivisionError
    | Some _, Some e => Raise e
    | Some _, None => (run_cells val l (pre ++ c :: post) h).1
    end.
Proof.
  induction pre as [|c1 pre IH]; intros h Hpre; simpl.
  - destruct (val c) as [v|] eqn:Hv; [|reflexivity].
    pose proof (heap_store_spec h l c v) as Hst.
    destruct (heap_store h l c v) as [e|h'].
    + rewrite Hst. reflexivity.
    + destruct Hst as (-> & _). reflexivity.
  - destruct (Hpre c1) as [[v1 Hv1] Herr]; [apply elem_of_cons; auto|].
    rewrite Hv1. pose proof (heap_store_spec h l c1 v1) as Hst.
    destruct (heap_store h l c1 v1) as [e|h']; [congruence|].
    destruct Hst as (_ & Hsh & _). rewrite <- Hsh. apply IH.
    intros c' Hin. rewrite Hsh. apply Hpre. apply elem_of_cons. auto.
Qed.
End RunOutcome.

(** A cell has a value exactly when no transmitter is at its sample point. *)
Lemma tx_sum_is_Some k px py pz els : forall acc,
  is_Some (tx_sum k px py pz els acc) <->
  Forall (fun e => distance_to px py pz e <> 0) els.
Proof.
  induction els as [|e els IH]; intros acc; simpl.
  - split; [constructor|eauto].
  - destruct (Req_dec_T (2 * 3.14159 * distance_to px py pz e) 0) as [E|N].
    + split; [intros [? ?]; discriminate|].
      intros Hall. apply Forall_cons in Hall as [He _]. exfalso. apply He. lra.
    + rewrite IH. split.
      * intros Hall. apply Forall_cons. split; [|assumption].
        intros Hz. apply N. rewrite Hz. ring.
      * intros Hall. apply Forall_cons in Hall as [_ Hall]. assumption.
Qed.

Lemma pixel_value_is_Some sv c :
  is_Some (pixel_value sv c) <->
  forall e, e ∈ elements sv ->
    let '(px, py, pz) := sample_point (rxPlane sv) c in distance_to px py pz e <> 0.
Proof.
  unfold pixel_value. destruct (sample_point (rxPlane sv) c) as [[px py] pz].
  rewrite <- Forall_forall, <- (tx_sum_is_Some (wavenumber sv) px py pz _ (0.0, 0.0)).
  destruct (tx_sum _ _ _ _ _ _); split; intros [? ?]; eauto; discriminate.
Qed.

(** The value of a cell with no transmitter at its sample point. *)
Lemma pixel_value_field_cell sv c :
  (forall e, e ∈ elements sv ->
     let '(px, py, pz) := sample_point (rxPlane sv) c in distance_to px py pz e <> 0) ->
  pixel_value sv c = Some (field_at sv c).
Proof.
  intros Hno. unfold pixel_value, field_at.
  destruct (sample_point (rxPlane sv) c) as [[px py] pz].
  rewrite tx_sum_no_zero by (apply Forall_forall; assumption).
  rewrite Cadd_0_l, complex_of_parts. reflexivity.
Qed.

(** [beamsim] returns exactly when every cell has a value and is in bounds,
    and then every cell holds its value. *)
Lemma beamsim_returns_iff sv h :
  (beamsim (mkState sv h)).1 = Ret tt <->
  forall c, c ∈ cells_of (ny (rxPlane sv)) (nz (rxPlane sv)) ->
    is_Some (pixel_value sv c) /\
    store_error (heap_shape h (pressurefield (rxPlane sv))) c = None.
Proof. rewrite beamsim_run. unfold on_heap. simpl. apply run_cells_returns_iff. Qed.

Lemma beamsim_returned_cell sv h c :
  (beamsim (mkState sv h)).1 = Ret tt ->
  c ∈ cells_of (ny (rxPlane sv)) (nz (rxPlane sv)) ->
  heap_get (arrays (beamsim (mkState sv h)).2) (pressurefield (rxPlane sv)) c =
  pixel_value sv c.
Proof.
  intros Hret Hc. pose proof (proj1 (beamsim_returns_iff sv h) Hret) as Hall.
  rewrite beamsim_run. unfold on_heap. simpl.
  apply run_cells_visited.
  rewrite (proj2 (run_cells_total _ _ _ _ Hall)). assumption.
Qed.

(** ** The claims about [beamsim] *)

(** C4. [beamsim] is idempotent: run again on the state it leaves, it ends the
    same way and leaves the same state, whatever the wavenumber, the
    transmitters and the plane; nothing accumulates across calls. *)
Theorem beamsim_idempotent sv h :
  beamsim (beamsim (mkState sv h)).2 = beamsim (mkState sv h).
Proof.
  rewrite (beamsim_run sv h). unfold on_heap at 1. simpl.
  rewrite beamsim_run, run_cells_idempotent. reflexivity.
Qed.



(** C7. On a valid plane, whatever the transmitters and however [beamsim]
    ends, the buffer has [ny] rows and [nz] columns afterwards, and the rows
    of the buffer have the lengths they had before: [beamsim] does not change
    the shape. *)
Theorem beamsim_shape sv h :
  RxPlane_valid (rxPlane sv) h ->
  (exists a, buffer (beamsim (mkState sv h)).2 = Some a /\
             has_shape a (Z.to_nat (ny (rxPlane sv))) (Z.to_nat (nz (rxPlane sv)))) /\
  heap_shape (arrays (beamsim (mkState sv h)).2) (pressurefield (rxPlane sv)) =
    heap_shape h (pressurefield (rxPlane sv)).
Proof.
  intros Hvalid. split.
  - destruct (beamsim_keeps_valid sv h Hvalid) as (_ & _ & _ & a & Ha & Hshape).
    exists a. split; [|assumption].
    unfold buffer. rewrite (proj1 (beamsim_frame_run sv h)). exact Ha.
  - rewrite beamsim_run. unfold on_heap. simpl. apply run_cells_frame.
Qed.

(** C8. [beamsim] changes the array of the plane and nothing else: the solver
    object (the wavenumber, the transmitters, the plane and its geometry) is
    as it was, no array is allocated, and every other array is as it was. *)
Theorem beamsim_frame sv h :
  self (beamsim (mkState sv h)).2 = sv /\
  length (arrays (beamsim (mkState sv h)).2) = length h /\
  forall l, l <> pressurefield (rxPlane sv) ->
            arrays (beamsim (mkState sv h)).2 !! l = h !! l.
Proof.
  rewrite beamsim_run. unfold on_heap. simpl.
  destruct (run_cells_frame (pixel_value sv) (pressurefield (rxPlane sv))
              (cells_of (ny (rxPlane sv)) (nz (rxPlane sv))) h) as (Hlen & _ & Hother).
  split; [reflexivity|]. split; [exact Hlen|exact Hother].
Qed.

(** C10. With no transmitters, [beamsim] returns and every cell of a valid
    plane holds zero, whatever it held before. *)
Theorem beamsim_no_transmitters sv h :
  RxPlane_valid (rxPlane sv) h -> elements sv = [] ->
  (beamsim (mkState sv h)).1 = Ret tt /\
  forall iy iz, (iy < Z.to_nat (ny (rxPlane sv)))%nat ->
                (iz < Z.to_nat (nz (rxPlane sv)))%nat ->
    heap_get (arrays (beamsim (mkState sv h)).2) (pressurefield (rxPlane sv)) (iy, iz) =
    Some C0.
Proof.
  intros Hvalid Hnil.
  assert (Hval : forall c, pixel_value sv c = Some C0).
  { intros c. unfold pixel_value. rewrite Hnil.
    destruct (sample_point (rxPlane sv) c) as [[px py] pz]. simpl.
    unfold Cadd, Cmul, Cj, RtoC, C0. simpl. do 2 f_equal; lra. }
  destruct (beamsim_returns sv h Hvalid) as [Hret Hcells].
  { intros c _. rewrite Hval. eauto. }
  split; [assumption|].
  intros iy iz Hy Hz. rewrite Hcells by (apply elem_of_cells_of; auto). apply Hval.
Qed.

(** The value of a cell for two transmitters is the sum of its values for
    each. *)
Lemma pixel_value_pair k ta tb p c va vb :
  pixel_value (mkSolver k [ta] p) c = Some va ->
  pixel_value (mkSolver k [tb] p) c = Some vb ->
  pixel_value (mkSolver k [ta; tb] p) c = Some (Cadd va vb).
Proof.
  unfold pixel_value. cbn [elements wavenumber rxPlane].
  destruct (sample_point p c) as [[px py] pz]. cbn [tx_sum].
  destruct (Req_dec_T (2 * 3.14159 * distance_to px py pz ta) 0); [discriminate|].
  destruct (Req_dec_T (2 * 3.14159 * distance_to px py pz tb) 0); [discriminate|].
  rewrite !complex_of_parts, !Cadd_0_l. intros [= <-] [= <-]. reflexivity.
Qed.

Lemma pixel_value_pair_split k ta tb p c :
  is_Some (pixel_value (mkSolver k [ta; tb] p) c) ->
  is_Some (pixel_value (mkSolver k [ta] p) c) /\
  is_Some (pixel_value (mkSolver k [tb] p) c).
Proof.
  rewrite !pixel_value_is_Some. simpl. intros Hab. split; intros e He;
    apply list_elem_of_singleton in He; subst e; apply Hab.
  - apply elem_of_cons. auto.
  - apply elem_of_cons. right. apply list_elem_of_singleton. reflexivity.
Qed.

(** C5. Superposition, for runs that return: when [beamsim] with the two
    transmitters returns, so do the run with the one and the run with the
    other, and every cell of the run with both holds the sum of what the same
    cell holds in the two other runs. *)
Theorem beamsim_superposition k ta tb p h :
  (beamsim (mkState (mkSolver k [ta; tb] p) h)).1 = Ret tt ->
  (beamsim (mkState (mkSolver k [ta] p) h)).1 = Ret tt /\
  (beamsim (mkState (mkSolver k [tb] p) h)).1 = Ret tt /\
  forall iy iz, (iy < Z.to_nat (ny p))%nat -> (iz < Z.to_nat (nz p))%nat ->
    exists va vb,
      heap_get (arrays (beamsim (mkState (mkSolver k [ta] p) h)).2)
               (pressurefield p) (iy, iz) = Some va /\
      heap_get (arrays (beamsim (mkState (mkSolver k [tb] p) h)).2)
               (pressurefield p) (iy, iz) = Some vb /\
      heap_get (arrays (beamsim (mkState (mkSolver k [ta; tb] p) h)).2)
               (pressurefield p) (iy, iz) = Some (Cadd va vb).
Proof.
  intros Hab. pose proof (proj1 (beamsim_returns_iff _ _) Hab) as Hall. simpl in Hall.
  assert (Ha : (beamsim (mkState (mkSolver k [ta] p) h)).1 = Ret tt).
  { apply beamsim_returns_iff. simpl. intros c Hc. destruct (Hall c Hc) as [Hs Hb].
    split; [apply (pixel_value_pair_split k ta tb p c Hs)|assumption]. }
  assert (Hb : (beamsim (mkState (mkSolver k [tb] p) h)).1 = Ret tt).
  { apply beamsim_returns_iff. simpl. intros c Hc. destruct (Hall c Hc) as [Hs Hb].
    split; [apply (pixel_value_pair_split k ta tb p c Hs)|assumption]. }
  split; [assumption|]. split; [assumption|].
  intros iy iz Hy Hz.
  assert (Hc : (iy, iz) ∈ cells_of (ny p) (nz p)) by (apply elem_of_cells_of; auto).
  destruct (Hall _ Hc) as [Hs _].
  destruct (pixel_value_pair_split k ta tb p _ Hs) as [[va Hva] [vb Hvb]].
  exists va, vb.
  pose proof (beamsim_returned_cell (mkSolver k [ta] p) h _ Ha Hc) as Ea.
  pose proof (beamsim_returned_cell (mkSolver k [tb] p) h _ Hb Hc) as Eb.
  pose proof (beamsim_returned_cell (mkSolver k [ta; tb] p) h _ Hab Hc) as Eab.
  cbn [rxPlane] in Ea, Eb, Eab. rewrite Ea, Eb, Eab.
  split; [assumption|]. split; [assumption|].
  apply pixel_value_pair; assumption.
Qed.

Lemma distance_zero px py pz e :
  distance_to px py pz e = 0 -> px = x e /\ py = y e /\ pz = z e.
Proof.
  unfold distance_to.
  set (a := px - x e). set (b := py - y e). set (c := pz - z e).
  intros Hzero.
  assert (Hsq : a * a + b * b + c * c = 0) by (apply sqrt_eq_0; [nra|assumption]).
  assert (a = 0 /\ b = 0 /\ c = 0) as (Ha & Hb & Hc) by (repeat split; nra).
  unfold a, b, c in *. repeat split; lra.
Qed.

(** A plane whose x coordinate differs from that of every transmitter has no
    transmitter at a sample point. *)
Lemma no_coincidence_off_plane k els p :
  (forall e, e ∈ els -> x e <> x0 p + IZR 0 * dx p) ->
  no_coincidence (mkSolver k els p).
Proof.
  intros Hoff c e _ He. simpl in He. unfold sample_point.
  intros Hzero. apply distance_zero in Hzero as [Hx _].
  apply (Hoff e He). symmetry. exact Hx.
Qed.

(** ** A single source

    The example of the specification: one transmitter at the origin with
    amplitude 1 and phase 0, the wavenumber 1000 and one sample point at the
    distance 0.01. *)

Lemma probe_constructed :
  RxPlane_new 0 probe_args class_heap = (Ret probe_plane, probe_heap).
Proof. rewrite RxPlane_new_run. reflexivity. Qed.

Lemma probe_valid : RxPlane_valid probe_plane probe_heap.
Proof. apply (RxPlane_new_valid 0 probe_args class_heap). apply probe_constructed. Qed.

Lemma probe_no_coincidence k els :
  (forall e, e ∈ els -> x e = 0.0) -> no_coincidence (mkSolver k els probe_plane).
Proof.
  intros Hx. apply no_coincidence_off_plane. intros e He. rewrite (Hx e He).
  simpl. lra.
Qed.

Lemma probe_distance : distance_to (0.01 + 0 * 0.1e-3) (0.0 + 0 * 0.1e-3)
                          (0.0 + 0 * 0.1e-3) origin_source = 0.01.
Proof.
  unfold distance_to. simpl.
  replace (_ + _ + _) with (0.01 * 0.01) by lra.
  apply sqrt_square. lra.
Qed.

Lemma probe_field : field_at probe_solver (0%nat, 0%nat) = code_single_source 1 1000 0.01.
Proof.
  unfold field_at, probe_solver, sample_point, code_single_source. simpl.
  rewrite Cadd_0_r. unfold contribution. cbv zeta. rewrite probe_distance.
  unfold Cscale. simpl.
  replace (- (1000) * 0.01 + 0.0) with (- (1000) * 0.01) by lra.
  f_equal; lra.
Qed.

Lemma PI_above_literal : 3.14159 < PI.
Proof.
  pose proof (PI_2_3_7_ineq 2) as [Hlow _].
  unfold sum_f_R0, tg_alt, PI_2_3_7_tg, Ratan_seq in Hlow.
  simpl in Hlow. lra.
Qed.

(** Two different scalings of a point of the unit circle differ. *)
Lemma Cscale_circle_inj a b t :
  Cscale a (cos t, sin t) = Cscale b (cos t, sin t) -> a = b.
Proof.
  unfold Cscale. simpl. intros [= Hc Hs].
  pose proof (sin2_cos2 t) as H1. unfold Rsqr in H1.
  assert (H : a - b = (a * cos t - b * cos t) * cos t + (a * sin t - b * sin t) * sin t).
  { transitivity ((a - b) * (sin t * sin t + cos t * cos t)); [|ring].
    rewrite H1. ring. }
  rewrite Hc, Hs in H. lra.
Qed.

(** C1, at the example of the specification.  [beamsim] returns and the cell
    holds [1 / (2 * 3.14159 * 0.01)] times [cos (-10) + i sin (-10)]: the
    code divides by [2 * 3.14159 * d], which is not the [2 pi d] of the
    closed form, so the value differs from the one the closed form gives. *)
Theorem beamsim_single_source_literal_pi :
  (beamsim (mkState probe_solver probe_heap)).1 = Ret tt /\
  heap_get (arrays (beamsim (mkState probe_solver probe_heap)).2) 1 (0%nat, 0%nat) =
    Some (code_single_source 1 1000 0.01) /\
  code_single_source 1 1000 0.01 <> spec_single_source 1 1000 0.01.
Proof.
  destruct (beamsim_closed_form probe_solver probe_heap) as [Hret Hcells].
  { apply probe_valid. }
  { apply probe_no_coincidence. intros e He.
    apply list_elem_of_singleton in He. subst e. reflexivity. }
  split; [assumption|]. split.
  - rewrite <- probe_field. apply (Hcells (0%nat, 0%nat)).
    apply elem_of_cells_of. simpl. lia.
  - intros Heq. apply Cscale_circle_inj in Heq.
    pose proof PI_above_literal as Hpi.
    assert (Hinv : 2 * 3.14159 * 0.01 = 2 * PI * 0.01).
    { apply Rinv_eq_reg. lra. }
    lra.
Qed.

(** ** The solver with its defaults *)

Example cells_of_order : cells_of 2 3 = [(0, 0); (1, 0); (0, 1); (1, 1); (0, 2); (1, 2)]%nat.
Proof. reflexivity. Qed.

Example range_negative : range (-3) = [].
Proof. reflexivity. Qed.

Example setitem_out_of_bounds : setitem (zeros 2 3) (2, 0)%nat C0 = None.
Proof. reflexivity. Qed.

Lemma default_constructed :
  RxPlane_new 0 RxPlane_default_args class_heap = (Ret default_plane, default_heap).
Proof. rewrite RxPlane_new_run. reflexivity. Qed.

(** The default plane is off the x coordinate of the default transmitters, so
    the default solver divides by no zero: [beamsim] returns and every cell
    holds the field. *)
Lemma default_solver_returns :
  (beamsim (mkState default_solver default_heap)).1 = Ret tt /\
  forall c, c ∈ cells_of 10 10 ->
    heap_get (arrays (beamsim (mkState default_solver default_heap)).2) 1 c =
    Some (field_at default_solver c).
Proof.
  apply (beamsim_closed_form default_solver default_heap).
  - apply (RxPlane_new_valid 0 RxPlane_default_args class_heap). apply default_constructed.
  - apply no_coincidence_off_plane. intros e He. simpl.
    unfold default_elements in He.
    repeat (apply elem_of_cons in He as [->|He]; [simpl; lra|]).
    inversion He.
Qed.

(** A transmitter at a sample point: the division raises, and the buffer is
    as it was. *)
Lemma beamsim_zero_division :
  beamsim (mkState (mkSolver 1000 [coincident_source] probe_plane) probe_heap) =
    (Raise ZeroDivisionError,
     mkState (mkSolver 1000 [coincident_source] probe_plane) probe_heap).
Proof.
  rewrite beamsim_run.
  change (cells_of _ _) with [(0%nat, 0%nat)].
  unfold run_cells, pixel_value, sample_point. cbn [rxPlane wavenumber elements].
  rewrite tx_sum_zero; [reflexivity|].
  apply Exists_cons_hd. unfold distance_to. simpl.
  replace (_ + _ + _) with 0 by lra. apply sqrt_0.
Qed.

(** ** Reset *)

(** What [clear_pressurefield] does on a plane with valid counts. *)
Lemma clear_pressurefield_run p h :
  (1 <= ny p)%Z -> (1 <= nz p)%Z ->
  clear_pressurefield (mkState p h) =
    (Ret tt, mkState (with_pressurefield (length h) p)
                     (h ++ [zeros (Z.to_nat (ny p)) (Z.to_nat (nz p))])).
Proof.
  intros Hy Hz. unfold clear_pressurefield, bind, gets, numpy_zeros. simpl.
  assert (Hy' : Z.ltb (ny p) 0 = false) by lia.
  assert (Hz' : Z.ltb (nz p) 0 = false) by lia.
  rewrite Hy', Hz'. reflexivity.
Qed.

Lemma code_single_source_nonzero : code_single_source 1 1000 0.01 <> C0.
Proof.
  replace C0 with (Cscale 0 (cos (- (1000) * 0.01), sin (- (1000) * 0.01))).
  - unfold code_single_source. intros Heq. apply Cscale_circle_inj in Heq.
    assert (H : 0 < 1 / (2 * 3.14159 * 0.01)).
    { apply Rdiv_lt_0_compat; lra. }
    lra.
  - unfold Cscale, C0. simpl. f_equal; ring.
Qed.

(** C9, as worded, fails: the plane built for the single source, after
    [beamsim], is valid, and [clear_pressurefield] leaves the array it
    referred to as it was, not zero: the reset is not in place. *)
Lemma clear_pressurefield_not_in_place :
  RxPlane_valid probe_plane probe_heap_solved /\
  ~ zeroed_in_place probe_plane probe_heap_solved.
Proof.
  assert (Hvalid : RxPlane_valid probe_plane probe_heap_solved).
  { apply (beamsim_keeps_valid probe_solver probe_heap). apply probe_valid. }
  split; [assumption|].
  intros Hzero. specialize (Hzero 0%nat 0%nat).
  rewrite clear_pressurefield_run in Hzero by (simpl; lia).
  simpl in Hzero. unfold heap_get in Hzero.
  destruct Hvalid as (_ & _ & _ & a & Ha & _). simpl in Ha.
  rewrite (lookup_app_l_Some _ _ _ _ Ha) in Hzero.
  destruct (beamsim_closed_form probe_solver probe_heap) as [_ Hcells].
  { apply probe_valid. }
  { apply probe_no_coincidence. intros e He.
    apply list_elem_of_singleton in He. subst e. reflexivity. }
  specialize (Hcells (0%nat, 0%nat)). simpl in Hcells.
  fold probe_heap_solved in Hcells. unfold heap_get in Hcells.
  rewrite Ha, probe_field in Hcells.
  rewrite Hcells in Hzero by (apply elem_of_cells_of; simpl; lia).
  apply code_single_source_nonzero.
  assert (Hz : Some (code_single_source 1 1000 0.01) = Some C0) by (apply Hzero; lia).
  congruence.
Qed.

(** C9, amended.  On a valid plane [clear_pressurefield] returns and binds the
    buffer to a newly allocated array: the geometry is as it was, the arrays
    that existed are as they were, and the new buffer has [ny] rows and [nz]
    columns and holds zero in every cell.  The same holds for the buffer of a
    plane the constructor returns. *)
Theorem clear_pressurefield_fresh p h :
  RxPlane_valid p h ->
  ((clear_pressurefield (mkState p h)).1 = Ret tt /\
   self (clear_pressurefield (mkState p h)).2 = with_pressurefield (length h) p /\
   (forall l, (l < length h)%nat ->
              arrays (clear_pressurefield (mkState p h)).2 !! l = h !! l) /\
   RxPlane_valid (self (clear_pressurefield (mkState p h)).2)
                 (arrays (clear_pressurefield (mkState p h)).2) /\
   forall iy iz, (iy < Z.to_nat (ny p))%nat -> (iz < Z.to_nat (nz p))%nat ->
     heap_get (arrays (clear_pressurefield (mkState p h)).2)
              (pressurefield (self (clear_pressurefield (mkState p h)).2)) (iy, iz) =
     Some C0) /\
  (forall cb a h0 p0 h1,
     RxPlane_new cb a h0 = (Ret p0, h1) ->
     RxPlane_valid p0 h1 /\
     forall iy iz, (iy < Z.to_nat (ny p0))%nat -> (iz < Z.to_nat (nz p0))%nat ->
       heap_get h1 (pressurefield p0) (iy, iz) = Some C0).
Proof.
  intros (Hx & Hy & Hz & a & Ha & Hshape). split.
  - rewrite clear_pressurefield_run by lia. simpl.
    assert (Hnew : (h ++ [zeros (Z.to_nat (ny p)) (Z.to_nat (nz p))]) !! length h =
                   Some (zeros (Z.to_nat (ny p)) (Z.to_nat (nz p)))).
    { rewrite lookup_app_r by lia. rewrite Nat.sub_diag. reflexivity. }
    split; [reflexivity|]. split; [reflexivity|]. split; [|split].
    + intros l Hl. apply lookup_app_l. assumption.
    + unfold RxPlane_valid. simpl. repeat (split; [assumption|]).
      eexists. split; [exact Hnew|apply zeros_shape].
    + intros iy iz Hiy Hiz. unfold heap_get. rewrite Hnew.
      apply zeros_get; assumption.
  - intros cb args h0 p0 h1 Hnew.
    destruct (RxPlane_new_valid _ _ _ _ _ Hnew) as (-> & -> & Hvalid).
    split; [assumption|]. simpl. intros iy iz Hiy Hiz. unfold heap_get.
    rewrite lookup_app_r by lia. rewrite Nat.sub_diag. simpl.
    apply zeros_get; assumption.
Qed.

(** ** The claims at the single source *)


Lemma beamsim_shape_witness :
  RxPlane_valid (rxPlane probe_solver) probe_heap /\
  (exists a, buffer (beamsim (mkState probe_solver probe_heap)).2 = Some a /\
             has_shape a (Z.to_nat (ny (rxPlane probe_solver)))
                         (Z.to_nat (nz (rxPlane probe_solver)))) /\
  heap_shape (arrays (beamsim (mkState probe_solver probe_heap)).2)
             (pressurefield (rxPlane probe_solver)) =
    heap_shape probe_heap (pressurefield (rxPlane probe_solver)).
Proof.
  split.
  - apply probe_valid.
  - apply (beamsim_shape probe_solver probe_heap). apply probe_valid.
Defined.

Lemma probe_solved_valid : RxPlane_valid probe_plane probe_heap_solved.
Proof. apply (beamsim_keeps_valid probe_solver probe_heap). apply probe_valid. Qed.

Lemma beamsim_no_transmitters_witness :
  RxPlane_valid (rxPlane (mkSolver 1000 [] probe_plane)) probe_heap_solved /\
  elements (mkSolver 1000 [] probe_plane) = [] /\
  (beamsim (mkState (mkSolver 1000 [] probe_plane) probe_heap_solved)).1 = Ret tt /\
  forall iy iz, (iy < Z.to_nat (ny (rxPlane (mkSolver 1000 [] probe_plane))))%nat ->
                (iz < Z.to_nat (nz (rxPlane (mkSolver 1000 [] probe_plane))))%nat ->
    heap_get (arrays (beamsim (mkState (mkSolver 1000 [] probe_plane)
                                       probe_heap_solved)).2)
             (pressurefield (rxPlane (mkSolver 1000 [] probe_plane))) (iy, iz) =
    Some C0.
Proof.
  split; [apply probe_solved_valid|]. split; [reflexivity|].
  apply (beamsim_no_transmitters (mkSolver 1000 [] probe_plane) probe_heap_solved).
  - apply probe_solved_valid.
  - reflexivity.
Defined.

Lemma beamsim_superposition_witness :
  (beamsim (mkState (mkSolver 1000 [origin_source; second_source] probe_plane)
                    probe_heap)).1 = Ret tt /\
  (beamsim (mkState (mkSolver 1000 [origin_source] probe_plane) probe_heap)).1 = Ret tt /\
  (beamsim (mkState (mkSolver 1000 [second_source] probe_plane) probe_heap)).1 = Ret tt /\
  forall iy iz, (iy < Z.to_nat (ny probe_plane))%nat ->
                (iz < Z.to_nat (nz probe_plane))%nat ->
    exists va vb,
      heap_get (arrays (beamsim (mkState (mkSolver 1000 [origin_source] probe_plane)
                                         probe_heap)).2)
               (pressurefield probe_plane) (iy, iz) = Some va /\
      heap_get (arrays (beamsim (mkState (mkSolver 1000 [second_source] probe_plane)
                                         probe_heap)).2)
               (pressurefield probe_plane) (iy, iz) = Some vb /\
      heap_get (arrays (beamsim (mkState (mkSolver 1000 [origin_source; second_source]
                                                   probe_plane) probe_heap)).2)
               (pressurefield probe_plane) (iy, iz) = Some (Cadd va vb).
Proof.
  assert (Hab : (beamsim (mkState (mkSolver 1000 [origin_source; second_source] probe_plane)
                                  probe_heap)).1 = Ret tt).
  { apply (beamsim_closed_form (mkSolver 1000 [origin_source; second_source] probe_plane)
             probe_heap probe_valid).
    apply probe_no_coincidence. intros e He.
    apply elem_of_cons in He as [->|He]; [reflexivity|].
    apply list_elem_of_singleton in He. subst e. reflexivity. }
  split; [exact Hab|].
  apply (beamsim_superposition 1000 origin_source second_source probe_plane probe_heap Hab).
Defined.

Lemma clear_pressurefield_fresh_witness :
  RxPlane_valid probe_plane probe_heap_solved /\
  (clear_pressurefield (mkState probe_plane probe_heap_solved)).1 = Ret tt /\
  self (clear_pressurefield (mkState probe_plane probe_heap_solved)).2 =
    with_pressurefield (length probe_heap_solved) probe_plane /\
  forall iy iz, (iy < Z.to_nat (ny probe_plane))%nat ->
                (iz < Z.to_nat (nz probe_plane))%nat ->
    heap_get (arrays (clear_pressurefield (mkState probe_plane probe_heap_solved)).2)
             (pressurefield (self (clear_pressurefield
                                     (mkState probe_plane probe_heap_solved)).2))
             (iy, iz) = Some C0.
Proof.
  split; [apply probe_solved_valid|].
  destruct (clear_pressurefield_fresh probe_plane probe_heap_solved probe_solved_valid)
    as [(Hret & Hself & _ & _ & Hzero) _].
  split; [exact Hret|]. split; [exact Hself|exact Hzero].
Defined.

(** ** A second plane *)

Lemma pair_constructed : RxPlane_new 0 pair_args class_heap = (Ret pair_plane, pair_heap).
Proof. rewrite RxPlane_new_run. reflexivity. Qed.

Lemma pair_valid : RxPlane_valid pair_plane pair_heap.
Proof. apply (RxPlane_new_valid 0 pair_args class_heap). apply pair_constructed. Qed.

(** ** Planes and their buffers *)

(** A valid plane stays valid when arrays are allocated. *)
Lemma RxPlane_valid_app p (h h' : heap) :
  RxPlane_valid p h -> RxPlane_valid p (h ++ h').
Proof.
  intros (Hx & Hy & Hz & a & Ha & Hshape). repeat (split; [assumption|]).
  exists a. split; [|assumption]. apply lookup_app_l_Some. assumption.
Qed.

(** X5. Two planes built one after the other never share a buffer: both are
    valid, the arrays that existed are as they were, and [beamsim] on the
    second, whatever the transmitters and however it ends, leaves the buffer
    of the first as it was. *)
Theorem RxPlane_new_no_aliasing cb a1 a2 h p1 h1 p2 h2 :
  RxPlane_new cb a1 h = (Ret p1, h1) ->
  RxPlane_new cb a2 h1 = (Ret p2, h2) ->
  pressurefield p1 <> pressurefield p2 /\
  RxPlane_valid p1 h2 /\ RxPlane_valid p2 h2 /\
  (forall l, (l < length h)%nat -> h2 !! l = h !! l) /\
  forall k els,
    arrays (beamsim (mkState (mkSolver k els p2) h2)).2 !! pressurefield p1 =
    h2 !! pressurefield p1.
Proof.
  intros H1 H2.
  destruct (RxPlane_new_valid _ _ _ _ _ H1) as (-> & -> & Hv1).
  destruct (RxPlane_new_valid _ _ _ _ _ H2) as (-> & -> & Hv2).
  assert (Hne : pressurefield (plane_of_args a1 (length h)) <>
                pressurefield (plane_of_args a2 (length (h ++ [zeros (Z.to_nat (a_ny a1))
                                                                (Z.to_nat (a_nz a1))])))).
  { simpl. rewrite length_app. simpl. lia. }
  split; [exact Hne|]. split; [apply RxPlane_valid_app; assumption|].
  split; [assumption|]. split.
  - intros l Hl. rewrite <- app_assoc. apply lookup_app_l. assumption.
  - intros k els.
    apply (proj2 (proj2 (beamsim_frame_run (mkSolver k els _) _))). exact Hne.
Qed.

Lemma RxPlane_new_no_aliasing_witness :
  RxPlane_new 0 probe_args class_heap = (Ret probe_plane, probe_heap) /\
  RxPlane_new 0 pair_args probe_heap =
    (Ret (plane_of_args pair_args 2), probe_heap ++ [zeros 2 1]) /\
  pressurefield probe_plane <> pressurefield (plane_of_args pair_args 2) /\
  forall k els,
    arrays (beamsim (mkState (mkSolver k els (plane_of_args pair_args 2))
                             (probe_heap ++ [zeros 2 1]))).2 !! pressurefield probe_plane =
    (probe_heap ++ [zeros 2 1]) !! pressurefield probe_plane.
Proof.
  assert (H2 : RxPlane_new 0 pair_args probe_heap =
               (Ret (plane_of_args pair_args 2), probe_heap ++ [zeros 2 1])).
  { rewrite RxPlane_new_run. reflexivity. }
  split; [apply probe_constructed|]. split; [exact H2|].
  destruct (RxPlane_new_no_aliasing 0 probe_args pair_args class_heap probe_plane
              probe_heap (plane_of_args pair_args 2) (probe_heap ++ [zeros 2 1])
              probe_constructed H2) as (Hne & _ & _ & _ & Hframe).
  split; [exact Hne|exact Hframe].
Defined.

(** [__init__] on any object. *)
Lemma RxPlane_init_on p h a :
  RxPlane_init a (mkState p h) =
    let p1 := with_spacing (a_dx a) (a_dy a) (a_dz a)
                (with_origin (a_x0 a) (a_y0 a) (a_z0 a) p) in
    if negb (Z.eqb (a_nx a) 1) then (Raise (AttributeError msg_nx), mkState p1 h)
    else if (Z.gtb (a_ny a) 4096 || Z.ltb (a_ny a) 1)%bool then
      (Raise (AttributeError msg_ny), mkState p1 h)
    else if (Z.gtb (a_nz a) 4096 || Z.ltb (a_nz a) 1)%bool then
      (Raise (AttributeError msg_nz), mkState (with_ny (a_ny a) p1) h)
    else
      (Ret tt,
       mkState (with_pressurefield (length h) (with_nz (a_nz a) (with_ny (a_ny a) p1)))
               (h ++ [zeros (Z.to_nat (a_ny a)) (Z.to_nat (a_nz a))])).
Proof.
  unfold RxPlane_init, set_self, modify, bind. simpl.
  destruct (negb (Z.eqb (a_nx a) 1)); simpl; [reflexivity|].
  destruct (Z.gtb (a_ny a) 4096 || Z.ltb (a_ny a) 1)%bool eqn:Hy; simpl; [reflexivity|].
  destruct (Z.gtb (a_nz a) 4096 || Z.ltb (a_nz a) 1)%bool eqn:Hz; simpl; [reflexivity|].
  unfold clear_pressurefield, bind, gets, numpy_zeros. simpl.
  assert (Hy' : Z.ltb (a_ny a) 0 = false) by lia.
  assert (Hz' : Z.ltb (a_nz a) 0 = false) by lia.
  rewrite Hy', Hz'. reflexivity.
Qed.

(** X6. [__init__] called on an existing plane.  It never assigns [nx] and
    never changes an existing array.  With valid arguments it returns and the
    plane has the new geometry and a new zero buffer of [ny] rows and [nz]
    columns.  When only [nz] is invalid it raises after [ny] is assigned and
    before the buffer is replaced: the plane keeps its old buffer with the new
    [ny]. *)
Theorem RxPlane_init_existing a p h :
  nx (self (RxPlane_init a (mkState p h)).2) = nx p /\
  (forall l, (l < length h)%nat -> arrays (RxPlane_init a (mkState p h)).2 !! l = h !! l) /\
  (a_nx a = 1%Z -> (1 <= a_ny a <= 4096)%Z -> (1 <= a_nz a <= 4096)%Z ->
   (RxPlane_init a (mkState p h)).1 = Ret tt /\
   self (RxPlane_init a (mkState p h)).2 =
     {| x0 := a_x0 a; y0 := a_y0 a; z0 := a_z0 a;
        dx := a_dx a; dy := a_dy a; dz := a_dz a;
        nx := nx p; ny := a_ny a; nz := a_nz a; pressurefield := length h |} /\
   arrays (RxPlane_init a (mkState p h)).2 =
     h ++ [zeros (Z.to_nat (a_ny a)) (Z.to_nat (a_nz a))]) /\
  (a_nx a = 1%Z -> (1 <= a_ny a <= 4096)%Z -> ~ (1 <= a_nz a <= 4096)%Z ->
   (RxPlane_init a (mkState p h)).1 = Raise (AttributeError msg_nz) /\
   ny (self (RxPlane_init a (mkState p h)).2) = a_ny a /\
   nz (self (RxPlane_init a (mkState p h)).2) = nz p /\
   pressurefield (self (RxPlane_init a (mkState p h)).2) = pressurefield p /\
   arrays (RxPlane_init a (mkState p h)).2 = h).
Proof.
  rewrite RxPlane_init_on. cbv zeta.
  destruct (Z.eqb_spec (a_nx a) 1) as [Hx|Hx]; simpl.
  2:{ repeat split; try reflexivity; intros; contradiction. }
  destruct (Z.gtb (a_ny a) 4096 || Z.ltb (a_ny a) 1)%bool eqn:Hy; simpl.
  { repeat split; try reflexivity; intros; lia. }
  destruct (Z.gtb (a_nz a) 4096 || Z.ltb (a_nz a) 1)%bool eqn:Hz; simpl.
  { repeat split; try reflexivity; intros; lia. }
  split; [reflexivity|]. split; [|split].
  - intros l Hl. apply lookup_app_l. assumption.
  - intros _ _ _. repeat split; reflexivity.
  - intros _ _ Hbad. exfalso. apply Hbad. lia.
Qed.

(** ** The cells [beamsim] writes *)

Lemma visited_in_cells val sh cells c : c ∈ visited val sh cells -> c ∈ cells.
Proof.
  induction cells as [|c1 cells IH]; simpl; [auto|].
  destruct (val c1); [|intros H; inversion H].
  destruct (store_error sh c1); [intros H; inversion H|].
  intros Hin. apply elem_of_cons in Hin as [->|Hin]; apply elem_of_cons; auto.
Qed.

(** How a run ends depends on the values and on the shape of the array
    only. *)
Lemma run_cells_outcome_shape val l cells : forall h1 h2,
  heap_shape h1 l = heap_shape h2 l ->
  (run_cells val l cells h1).1 = (run_cells val l cells h2).1.
Proof.
  induction cells as [|c cells IH]; intros h1 h2 Hsh; simpl; [reflexivity|].
  destruct (val c) as [v|]; [|reflexivity].
  pose proof (heap_store_spec h1 l c v) as H1.
  pose proof (heap_store_spec h2 l c v) as H2.
  destruct (heap_store h1 l c v) as [e1|h1'], (heap_store h2 l c v) as [e2|h2'].
  - simpl. rewrite Hsh in H1. congruence.
  - destruct H2 as (H2 & _). rewrite Hsh in H1. congruence.
  - destruct H1 as (H1 & _). rewrite Hsh in H1. congruence.
  - destruct H1 as (_ & S1 & _), H2 as (_ & S2 & _). apply IH. congruence.
Qed.

Lemma store_error_None_inv (a : ndarray) rows cols iy iz :
  has_shape a rows cols ->
  store_error (Some (length <$> a)) (iy, iz) = None ->
  (iy < rows)%nat /\ (iz < cols)%nat.
Proof.
  intros [Hrows Hcols]. unfold store_error. simpl. rewrite list_lookup_fmap.
  destruct (a !! iy) as [row|] eqn:Hrow; simpl; [|discriminate].
  rewrite Forall_forall in Hcols.
  rewrite (Hcols row) by (eapply list_elem_of_lookup_2; eassumption).
  destruct (decide (iz < cols)%nat); [|discriminate].
  intros _. split; [|assumption]. rewrite <- Hrows. eapply lookup_lt_Some. eassumption.
Qed.

(** X3. [beamsim] writes no cell outside the block of [ny] rows and [nz]
    columns: whatever the inputs and however it ends, a cell of the buffer
    that is not one of the cells of the loops holds what it held. *)
Theorem beamsim_writes_block_only sv h c :
  c ∉ cells_of (ny (rxPlane sv)) (nz (rxPlane sv)) ->
  heap_get (arrays (beamsim (mkState sv h)).2) (pressurefield (rxPlane sv)) c =
  heap_get h (pressurefield (rxPlane sv)) c.
Proof.
  intros Hc. rewrite beamsim_run. unfold on_heap. simpl.
  apply run_cells_untouched. intros Hin. apply Hc.
  eapply visited_in_cells. eassumption.
Qed.

Lemma beamsim_writes_block_only_witness :
  ((1, 0)%nat ∉ cells_of (ny (rxPlane (mkSolver 1000 [origin_source] (with_ny 1 pair_plane))))
                         (nz (rxPlane (mkSolver 1000 [origin_source] (with_ny 1 pair_plane))))) /\
  heap_get (arrays (beamsim (mkState (mkSolver 1000 [origin_source] (with_ny 1 pair_plane))
                                     pair_heap)).2)
           (pressurefield (rxPlane (mkSolver 1000 [origin_source] (with_ny 1 pair_plane))))
           (1, 0)%nat =
  heap_get pair_heap
           (pressurefield (rxPlane (mkSolver 1000 [origin_source] (with_ny 1 pair_plane))))
           (1, 0)%nat.
Proof.
  assert (Hc : (1, 0)%nat ∉ cells_of
            (ny (rxPlane (mkSolver 1000 [origin_source] (with_ny 1 pair_plane))))
            (nz (rxPlane (mkSolver 1000 [origin_source] (with_ny 1 pair_plane))))).
  { intros Hin. apply elem_of_cells_of in Hin. simpl in Hin. lia. }
  split; [exact Hc|].
  apply (beamsim_writes_block_only (mkSolver 1000 [origin_source] (with_ny 1 pair_plane))
           pair_heap (1, 0)%nat Hc).
Defined.

(** X4. [beamsim] returns only on a buffer that is large enough: when the
    counts are at least 1 and [beamsim] returns, the array of the plane has at
    least [ny] rows and [nz] columns.  On a smaller buffer, left by a count
    raised after the construction, [beamsim] does not return. *)
Theorem beamsim_returns_fits sv h (a : ndarray) rows cols :
  h !! pressurefield (rxPlane sv) = Some a ->
  has_shape a rows cols ->
  (0 < Z.to_nat (ny (rxPlane sv)))%nat ->
  (0 < Z.to_nat (nz (rxPlane sv)))%nat ->
  (beamsim (mkState sv h)).1 = Ret tt ->
  (Z.to_nat (ny (rxPlane sv)) <= rows)%nat /\ (Z.to_nat (nz (rxPlane sv)) <= cols)%nat.
Proof.
  intros Ha Hshape Hy Hz Hret.
  pose proof (proj1 (beamsim_returns_iff sv h) Hret) as Hall.
  unfold heap_shape in Hall. rewrite Ha in Hall.
  destruct (Hall (Z.to_nat (ny (rxPlane sv)) - 1, Z.to_nat (nz (rxPlane sv)) - 1)%nat)
    as [_ Hin]; [apply elem_of_cells_of; lia|].
  apply (store_error_None_inv a rows cols) in Hin; [lia|assumption].
Qed.

Lemma beamsim_returns_fits_witness :
  probe_heap !! pressurefield (rxPlane probe_solver) = Some (zeros 1 1) /\
  has_shape (zeros 1 1) 1 1 /\
  (0 < Z.to_nat (ny (rxPlane probe_solver)))%nat /\
  (0 < Z.to_nat (nz (rxPlane probe_solver)))%nat /\
  (beamsim (mkState probe_solver probe_heap)).1 = Ret tt /\
  (Z.to_nat (ny (rxPlane probe_solver)) <= 1)%nat /\
  (Z.to_nat (nz (rxPlane probe_solver)) <= 1)%nat.
Proof.
  assert (Hret : (beamsim (mkState probe_solver probe_heap)).1 = Ret tt).
  { apply (beamsim_closed_form probe_solver probe_heap probe_valid).
    apply probe_no_coincidence. intros e He.
    apply list_elem_of_singleton in He. subst e. reflexivity. }
  split; [reflexivity|]. split; [apply zeros_shape|].
  split; [simpl; lia|]. split; [simpl; lia|]. split; [exact Hret|].
  apply (beamsim_returns_fits probe_solver probe_heap (zeros 1 1) 1 1).
  - reflexivity.
  - apply zeros_shape.
  - simpl. lia.
  - simpl. lia.
  - exact Hret.
Defined.

(** ** One solve after another *)

(** X15. A solve does not depend on the solves before it.  After a run of
    [beamsim] on the plane with any wavenumber and any transmitters, however
    that run ended, a second run ends as it would have ended without the
    first, and when it returns every cell of the block holds what it would
    hold without the first. *)
Theorem beamsim_after_beamsim k1 els1 k2 els2 p h :
  (beamsim (mkState (mkSolver k2 els2 p)
                    (arrays (beamsim (mkState (mkSolver k1 els1 p) h)).2))).1 =
    (beamsim (mkState (mkSolver k2 els2 p) h)).1 /\
  ((beamsim (mkState (mkSolver k2 els2 p) h)).1 = Ret tt ->
   forall c, c ∈ cells_of (ny p) (nz p) ->
     heap_get (arrays (beamsim (mkState (mkSolver k2 els2 p)
                                 (arrays (beamsim (mkState (mkSolver k1 els1 p) h)).2))).2)
              (pressurefield p) c =
     heap_get (arrays (beamsim (mkState (mkSolver k2 els2 p) h)).2) (pressurefield p) c).
Proof.
  assert (Hout : (beamsim (mkState (mkSolver k2 els2 p)
                    (arrays (beamsim (mkState (mkSolver k1 els1 p) h)).2))).1 =
                 (beamsim (mkState (mkSolver k2 els2 p) h)).1).
  { rewrite (beamsim_run (mkSolver k1 els1 p) h). unfold on_heap at 1. simpl.
    rewrite !beamsim_run. unfold on_heap. simpl.
    apply run_cells_outcome_shape. apply run_cells_frame. }
  split; [exact Hout|].
  intros Hret c Hc.
  pose proof (beamsim_returned_cell (mkSolver k2 els2 p) h c Hret Hc) as E2.
  rewrite <- Hout in Hret.
  pose proof (beamsim_returned_cell (mkSolver k2 els2 p) _ c Hret Hc) as E1.
  cbn [rxPlane] in E1, E2. rewrite E1, E2. reflexivity.
Qed.

(** X16. With a count that is zero or negative the loops run over no cell:
    [beamsim] returns at once and changes nothing, whatever the transmitters
    and the buffer. *)
Theorem beamsim_no_cells sv h :
  (ny (rxPlane sv) <= 0)%Z \/ (nz (rxPlane sv) <= 0)%Z ->
  beamsim (mkState sv h) = (Ret tt, mkState sv h).
Proof.
  intros Hcount. rewrite beamsim_run.
  assert (Hnil : cells_of (ny (rxPlane sv)) (nz (rxPlane sv)) = []).
  { unfold cells_of, range. destruct Hcount as [Hy|Hz].
    - replace (Z.to_nat (ny (rxPlane sv))) with 0%nat by lia. simpl.
      induction (seq 0 (Z.to_nat (nz (rxPlane sv)))) as [|iz izs IH]; [reflexivity|].
      simpl. exact IH.
    - replace (Z.to_nat (nz (rxPlane sv))) with 0%nat by lia. reflexivity. }
  rewrite Hnil. reflexivity.
Qed.

Lemma beamsim_no_cells_witness :
  ((ny (rxPlane (mkSolver 1000 [coincident_source] (with_ny 0 probe_plane))) <= 0)%Z \/
   (nz (rxPlane (mkSolver 1000 [coincident_source] (with_ny 0 probe_plane))) <= 0)%Z) /\
  beamsim (mkState (mkSolver 1000 [coincident_source] (with_ny 0 probe_plane)) probe_heap) =
    (Ret tt, mkState (mkSolver 1000 [coincident_source] (with_ny 0 probe_plane)) probe_heap).
Proof.
  split.
  - left. simpl. lia.
  - apply (beamsim_no_cells (mkSolver 1000 [coincident_source] (with_ny 0 probe_plane))
             probe_heap).
    left. simpl. lia.
Defined.
